(** * hn-to-instapaper: a shallow embedding of [main.py]

    The script fetches the identifiers of the top Hacker News stories, fetches
    every story, keeps the ones that carry a [url], ranks them by their
    [descendants] count, and mails the best ones to an Instapaper address.

    Values are the Python values that [response.json()] produces.  Two kinds
    of value are left out of the development: numbers with a fraction or an
    exponent (Python floats), and characters beyond one byte (a [string] is
    read as one character per [ascii]).  Effects (printing, HTTP requests, the
    SMTP session) go through a state-and-exception monad whose state carries
    the outside world and the trace of what the program did. *)

From Stdlib Require Import ZArith List String Ascii Bool Lia Sorted Permutation.
Import ListNotations.
Open Scope string_scope.
Open Scope list_scope.
Open Scope Z_scope.

Set Implicit Arguments.
Set Warnings "-register-all".

(* ------------------------------------------------------------------ *)
(** ** Python values *)

Inductive pyval : Type :=
| JNull                                   (* None / JSON null *)
| JBool (b : bool)
| JInt (z : Z)
| JStr (s : string)
| JList (l : list pyval)
| JDict (d : list (string * pyval)).      (* keys in insertion order *)

(** [bool(v)]: the truth value Python gives to [v] in [if v] and [not v]. *)
Definition truthy (v : pyval) : bool :=
  match v with
  | JNull => false
  | JBool b => b
  | JInt z => negb (z =? 0)
  | JStr s => negb (String.eqb s "")
  | JList l => match l with [] => false | _ => true end
  | JDict d => match d with [] => false | _ => true end
  end.

(** [v is not None]. *)
Definition is_not_None (v : pyval) : bool :=
  match v with JNull => false | _ => true end.

(** Lookup in a dict kept as an association list: the first binding wins. *)
Fixpoint dict_lookup (d : list (string * pyval)) (k : string) : option pyval :=
  match d with
  | [] => None
  | (k', v) :: d' => if String.eqb k k' then Some v else dict_lookup d' k
  end.

(** [d.get(k, default)]. *)
Definition dict_get (d : list (string * pyval)) (k : string) (default : pyval)
  : pyval :=
  match dict_lookup d k with
  | Some v => v
  | None => default
  end.

(* ------------------------------------------------------------------ *)
(** ** Exceptions *)

Inductive exn_class : Type :=
(* BaseException, outside Exception *)
| KeyboardInterrupt
| SystemExit
(* builtins *)
| TypeError
| AttributeError
| KeyError
| ValueError
| OSError
(* requests.exceptions *)
| RequestException
| HTTPError
| ConnectionError
| Timeout
| TooManyRedirects
| InvalidJSONError
(* smtplib *)
| SMTPException
| SMTPServerDisconnected
| SMTPResponseException
| SMTPAuthenticationError
| SMTPRecipientsRefused
| SMTPSenderRefused
| SMTPDataError
| SMTPNotSupportedError.

Record exn : Type := mkExn { exn_class_of : exn_class; exn_msg : string }.

(** [isinstance(e, requests.RequestException)]. *)
Definition is_RequestException (e : exn) : bool :=
  match exn_class_of e with
  | RequestException | HTTPError | ConnectionError | Timeout
  | TooManyRedirects | InvalidJSONError => true
  | _ => false
  end.

(** [isinstance(e, Exception)]. *)
Definition is_Exception (e : exn) : bool :=
  match exn_class_of e with
  | KeyboardInterrupt | SystemExit => false
  | _ => true
  end.

Inductive result (A : Type) : Type :=
| Ok (a : A)
| Raise (e : exn).
Arguments Ok {A} a.
Arguments Raise {A} e.

Definition result_bind {A B} (r : result A) (k : A -> result B) : result B :=
  match r with
  | Ok a => k a
  | Raise e => Raise e
  end.

Fixpoint result_map {A B} (f : A -> result B) (l : list A) : result (list B) :=
  match l with
  | [] => Ok []
  | a :: l' =>
      result_bind (f a) (fun b =>
      result_bind (result_map f l') (fun bs => Ok (b :: bs)))
  end.

(* ------------------------------------------------------------------ *)
(** ** Comparing values *)

(** [bool] is a subclass of [int]: [True] counts as 1 and [False] as 0. *)
Definition as_int (v : pyval) : option Z :=
  match v with
  | JInt z => Some z
  | JBool b => Some (if b then 1 else 0)
  | _ => None
  end.

(** [a == b]. Two dicts are equal when they bind the same keys to equal
    values, in whatever order. *)
Fixpoint py_eq (a b : pyval) {struct a} : bool :=
  match a, b with
  | JNull, JNull => true
  | JStr s, JStr t => String.eqb s t
  | JList l, JList m =>
      (fix all2 (l : list pyval) (m : list pyval) {struct l} : bool :=
         match l, m with
         | [], [] => true
         | x :: l', y :: m' => py_eq x y && all2 l' m'
         | _, _ => false
         end) l m
  | JDict d, JDict e =>
      (fix sub (d : list (string * pyval)) (seen : list string) {struct d}
         : bool :=
         match d with
         | [] =>
             Nat.eqb (List.length (nodup string_dec seen))
                     (List.length (nodup string_dec (map fst e)))
         | (k, v) :: d' =>
             (if in_dec string_dec k seen then true
              else match dict_lookup e k with
                   | Some w => py_eq v w
                   | None => false
                   end) && sub d' (k :: seen)
         end) d []
  | _, _ =>
      match as_int a, as_int b with
      | Some x, Some y => x =? y
      | _, _ => false
      end
  end.

Definition unorderable : exn :=
  mkExn TypeError "'<' not supported between instances".

(** [a < b]: numbers by value, strings and lists lexicographically, a
    [TypeError] for every other pair. *)
Fixpoint py_lt (a b : pyval) {struct a} : result bool :=
  match a, b with
  | JStr s, JStr t => Ok (String.ltb s t)
  | JList l, JList m =>
      (fix lex (l : list pyval) (m : list pyval) {struct l} : result bool :=
         match l, m with
         | [], [] => Ok false
         | [], _ :: _ => Ok true
         | _ :: _, [] => Ok false
         | x :: l', y :: m' => if py_eq x y then lex l' m' else py_lt x y
         end) l m
  | _, _ =>
      match as_int a, as_int b with
      | Some x, Some y => Ok (x <? y)
      | _, _ => Raise unorderable
      end
  end.

(* ------------------------------------------------------------------ *)
(** ** Builtins used by the script *)

(** [l[:n]]: a negative [n] counts from the end. *)
Definition slice_to {A} (l : list A) (n : Z) : list A :=
  if 0 <=? n then firstn (Z.to_nat n) l
  else firstn (Z.to_nat (Z.of_nat (List.length l) + n)) l.

Definition no_attribute (name : string) : exn :=
  mkExn AttributeError ("object has no attribute '" ++ name ++ "'")%string.

(** [v.get(k, default)]: only a dict has the method. *)
Definition py_get (v : pyval) (k : string) (default : pyval) : result pyval :=
  match v with
  | JDict d => Ok (dict_get d k default)
  | _ => Raise (no_attribute "get")
  end.

(** [sorted(l, key=key, reverse=True)].  Python computes every key first and
    then sorts on the keys with [<] alone; the sort is stable, and with
    [reverse=True] elements whose keys tie still keep their order.  The sort
    is written here as an insertion sort on (key, element) pairs. *)
Fixpoint insert_desc (kx : pyval * pyval) (l : list (pyval * pyval))
  : result (list (pyval * pyval)) :=
  match l with
  | [] => Ok [kx]
  | ky :: l' =>
      result_bind (py_lt (fst kx) (fst ky)) (fun lt =>
      if lt then result_bind (insert_desc kx l') (fun r => Ok (ky :: r))
      else Ok (kx :: ky :: l'))
  end.

Fixpoint sort_desc (l : list (pyval * pyval)) : result (list (pyval * pyval)) :=
  match l with
  | [] => Ok []
  | kx :: l' => result_bind (sort_desc l') (insert_desc kx)
  end.

Definition sorted_reverse (key : pyval -> result pyval) (l : list pyval)
  : result (list pyval) :=
  result_bind (result_map key l) (fun keys =>
  result_bind (sort_desc (combine keys l)) (fun kl =>
  Ok (map snd kl))).

(* ------------------------------------------------------------------ *)
(** ** The pure functions of [main.py] *)

(** [has_external_url(story)]: [story.get("url") is not None]. *)
Definition has_external_url (story : pyval) : result bool :=
  result_bind (py_get story "url" JNull) (fun u => Ok (is_not_None u)).

(** [get_top_commented_stories(stories, n)]. *)
Definition get_top_commented_stories (stories : list pyval) (n : Z)
  : result (list pyval) :=
  result_bind
    (sorted_reverse (fun s => py_get s "descendants" (JInt 0)) stories)
    (fun sorted_stories => Ok (slice_to sorted_stories n)).

(* ------------------------------------------------------------------ *)
(** ** The outside world *)

(** The two addresses the script requests: [HN_TOP_STORIES], and
    [HN_ITEM.format(story_id)], kept with the identifier it was built from. *)
Inductive url : Type :=
| HN_TOP_STORIES
| HN_ITEM (story_id : pyval).

(** What [response.json()] does with the body that came back. *)
Inductive json_outcome : Type :=
| JsonValue (v : pyval)
| JsonRaises (e : exn).

Record response : Type := mkResponse
  { status_code : Z;
    json_body : json_outcome }.

(** What [requests.get(url, timeout=...)] does. *)
Inductive get_outcome : Type :=
| GetRaises (e : exn)
| GetReturns (r : response).

(** A [MIMEText]: its subtype, its payload, and the headers assigned to it,
    oldest first. *)
Record message : Type := mkMessage
  { subtype : string;
    payload : string;
    headers : list (string * pyval) }.

(** The calls made on [smtplib]: the constructor [SMTP(host, port)], the three
    methods of the [with] body, and the [QUIT] that leaving the [with] block
    sends. *)
Inductive smtp_op : Type :=
| SMTP_open (host : string) (port : Z)
| SMTP_starttls
| SMTP_login (user password : pyval)
| SMTP_send_message (msg : message)
| SMTP_exit.

(** A printed line: text, with the values an f-string interpolates. *)
Inductive piece : Type :=
| Lit (s : string)
| Fmt (v : pyval)
| FmtExn (e : exn).

Definition line : Type := list piece.

Inductive event : Type :=
| Printed (l : line)
| Requested (u : url) (timeout : Z)
| Smtp (op : smtp_op).

Definition is_network (ev : event) : bool :=
  match ev with
  | Printed _ => false
  | Requested _ _ | Smtp _ => true
  end.

(** The network as the script meets it: each call is answered by the world,
    which may change with every call. *)
Class Net (W : Type) : Type :=
  { requests_get : url -> Z -> W -> get_outcome * W;
    smtp_call : smtp_op -> W -> option exn * W }.

(** The module-level configuration, read from the environment at load time:
    [os.environ.get] gives [None] for a variable that is not set. *)
Record config : Type := mkConfig
  { ICLOUD_EMAIL : option string;
    ICLOUD_APP_PASSWORD : option string;
    INSTAPAPER_EMAIL : option string }.

Definition env_value (o : option string) : pyval :=
  match o with
  | Some s => JStr s
  | None => JNull
  end.

Definition STORIES_TO_FETCH : Z := 20.
Definition STORIES_TO_SEND : Z := 5.

(* ------------------------------------------------------------------ *)
(** ** The monad of the script *)

Record state (W : Type) : Type := mkState
  { world : W;
    trace : list event }.
Arguments mkState {W} world trace.
Arguments world {W} s.
Arguments trace {W} s.

Definition M (W A : Type) : Type := state W -> result A * state W.

Definition ret {W A} (a : A) : M W A := fun s => (Ok a, s).

Definition raise {W A} (e : exn) : M W A := fun s => (Raise e, s).

Definition bind {W A B} (m : M W A) (k : A -> M W B) : M W B :=
  fun s =>
    match m s with
    | (Ok a, s') => k a s'
    | (Raise e, s') => (Raise e, s')
    end.

Definition lift {W A} (r : result A) : M W A := fun s => (r, s).

(** The protected part of a [try] or [with] statement: the outcome of [m]
    handed over as a value. *)
Definition attempt {W A} (m : M W A) : M W (result A) :=
  fun s => let (r, s') := m s in (Ok r, s').

Definition emit {W} (ev : event) : M W unit :=
  fun s => (Ok tt, mkState (world s) (trace s ++ [ev])).

Definition print {W} (l : line) : M W unit := emit (Printed l).

Notation "x <- m ;; k" := (bind m (fun x => k))
  (at level 61, m at next level, right associativity).
Notation "m ;; k" := (bind m (fun _ => k))
  (at level 61, right associativity).

(** [for x in l: body(x)], the body run for its effects. *)
Fixpoint for_each {W A} (l : list A) (body : A -> M W unit) : M W unit :=
  match l with
  | [] => ret tt
  | x :: l' => body x ;; for_each l' body
  end.

(* ------------------------------------------------------------------ *)
(** ** The script *)

Definition nl : string := String (ascii_of_nat 10) "".

Definition not_subscriptable : exn :=
  mkExn TypeError "object is not subscriptable".

Definition not_iterable : exn :=
  mkExn TypeError "object is not iterable".

(** [v[:n]].  Slicing a dict raises as well ([KeyError] from Python 3.12 on;
    nothing in the script tells the two apart). *)
Definition py_slice_to (v : pyval) (n : Z) : result pyval :=
  match v with
  | JList l => Ok (JList (slice_to l n))
  | JStr s => Ok (JStr (string_of_list_ascii (slice_to (list_ascii_of_string s) n)))
  | _ => Raise not_subscriptable
  end.

(** The elements a [for] loop draws from [v]. *)
Definition py_iter (v : pyval) : result (list pyval) :=
  match v with
  | JList l => Ok l
  | JStr s => Ok (map (fun c => JStr (String c "")) (list_ascii_of_string s))
  | JDict d => Ok (map (fun kv => JStr (fst kv)) d)
  | _ => Raise not_iterable
  end.

(** [v[k]] for a string [k]. *)
Definition py_getitem (v : pyval) (k : string) : result pyval :=
  match v with
  | JDict d =>
      match dict_lookup d k with
      | Some x => Ok x
      | None => Raise (mkExn KeyError k)
      end
  | JStr _ | JList _ => Raise (mkExn TypeError "indices must be integers")
  | _ => Raise not_subscriptable
  end.

(** [response.raise_for_status()]: an [HTTPError] for a 4xx or 5xx status. *)
Definition is_error_status (code : Z) : bool :=
  (400 <=? code) && (code <? 600).

Definition raise_for_status (r : response) : result unit :=
  if is_error_status (status_code r)
  then Raise (mkExn HTTPError "Client or Server Error")
  else Ok tt.

(** [response.json()]. *)
Definition json (r : response) : result pyval :=
  match json_body r with
  | JsonValue v => Ok v
  | JsonRaises e => Raise e
  end.

(** [MIMEText(text)]: the constructor encodes its argument, which only a
    [str] allows. *)
Definition MIMEText (text : pyval) : result message :=
  match text with
  | JStr s => Ok (mkMessage "plain" s [])
  | _ => Raise (no_attribute "encode")
  end.

(** [msg[name] = value]: one more header at the end. *)
Definition set_header (msg : message) (name : string) (value : pyval)
  : message :=
  mkMessage (subtype msg) (payload msg) (headers msg ++ [(name, value)]).

Section Script.

Context {W : Type} `{Net W}.

Definition get (u : url) (timeout : Z) : M W response :=
  emit (Requested u timeout) ;;
  fun s =>
    match requests_get u timeout (world s) with
    | (GetRaises e, w) => (Raise e, mkState w (trace s))
    | (GetReturns r, w) => (Ok r, mkState w (trace s))
    end.

Definition smtp (op : smtp_op) : M W unit :=
  emit (Smtp op) ;;
  fun s =>
    match smtp_call op (world s) with
    | (Some e, w) => (Raise e, mkState w (trace s))
    | (None, w) => (Ok tt, mkState w (trace s))
    end.

(** [fetch_top_stories(n)]. *)
Definition fetch_top_stories (n : Z) : M W pyval :=
  response <- get HN_TOP_STORIES 10 ;;
  lift (raise_for_status response) ;;
  ids <- lift (json response) ;;
  lift (py_slice_to ids n).

(** [fetch_story(story_id)]: [None] when a [RequestException] is raised. *)
Definition fetch_story (story_id : pyval) : M W pyval :=
  r <- attempt (response <- get (HN_ITEM story_id) 10 ;;
                lift (raise_for_status response) ;;
                lift (json response)) ;;
  match r with
  | Ok v => ret v
  | Raise e => if is_RequestException e then ret JNull else raise e
  end.

Variable cfg : config.

(** [with smtplib.SMTP(host, port) as server: body]: once the connection
    stands, leaving the block sends [QUIT] whatever the body did; an exception
    of the exit itself takes the place of the body's. *)
Definition with_SMTP (host : string) (port : Z) (body : M W unit) : M W unit :=
  smtp (SMTP_open host port) ;;
  r <- attempt body ;;
  smtp SMTP_exit ;;
  lift r.

(** [send_to_instapaper(url, title)]. *)
Definition send_to_instapaper (url title : pyval) : M W unit :=
  msg <- lift (MIMEText url) ;;
  let msg := set_header msg "Subject" title in
  let msg := set_header msg "From" (env_value (ICLOUD_EMAIL cfg)) in
  let msg := set_header msg "To" (env_value (INSTAPAPER_EMAIL cfg)) in
  with_SMTP "smtp.mail.me.com" 587
    (smtp SMTP_starttls ;;
     smtp (SMTP_login (env_value (ICLOUD_EMAIL cfg))
                      (env_value (ICLOUD_APP_PASSWORD cfg))) ;;
     smtp (SMTP_send_message msg)).

(** The names [main] gathers in [missing], in the order it tests them. *)
Definition missing_variables : list string :=
  (if negb (truthy (env_value (ICLOUD_EMAIL cfg)))
   then ["ICLOUD_EMAIL"] else []) ++
  (if negb (truthy (env_value (ICLOUD_APP_PASSWORD cfg)))
   then ["ICLOUD_APP_PASSWORD"] else []) ++
  (if negb (truthy (env_value (INSTAPAPER_EMAIL cfg)))
   then ["INSTAPAPER_EMAIL"] else []).

(** The guard of the loop over the identifiers:
    [story and has_external_url(story)]. *)
Definition keeps (story : pyval) : result bool :=
  if truthy story then has_external_url story else Ok false.

(** The loop of [main] that fetches every story and appends the ones it
    keeps to [stories]. *)
Fixpoint main_collect (story_ids : list pyval) (stories : list pyval)
  : M W (list pyval) :=
  match story_ids with
  | [] => ret stories
  | story_id :: rest =>
      story <- fetch_story story_id ;;
      keep <- lift (keeps story) ;;
      main_collect rest (if keep then stories ++ [story] else stories)
  end.

Definition sent_line : line := [Lit ("   ✓ Sent to Instapaper" ++ nl)%string].

Definition failed_line (e : exn) : line :=
  [Lit "   ✗ Failed to send: "; FmtExn e; Lit nl].

(** One turn of the loop of [main] over [enumerate(top_stories, 1)]. *)
Definition main_send_one (i : Z) (story : pyval) : M W unit :=
  title <- lift (py_get story "title" (JStr "Untitled")) ;;
  url <- lift (py_getitem story "url") ;;
  comments <- lift (py_get story "descendants" (JInt 0)) ;;
  print [Fmt (JInt i); Lit ". "; Fmt title] ;;
  print [Lit "   "; Fmt url] ;;
  print [Lit "   ("; Fmt comments; Lit " comments)"] ;;
  r <- attempt (send_to_instapaper url title) ;;
  match r with
  | Ok _ => print sent_line
  | Raise e => if is_Exception e then print (failed_line e) else raise e
  end.

Fixpoint main_send (i : Z) (top_stories : list pyval) : M W unit :=
  match top_stories with
  | [] => ret tt
  | story :: rest => main_send_one i story ;; main_send (i + 1) rest
  end.

(** [main] from its first request to [top_stories], for the two settings
    [STORIES_TO_FETCH] and [STORIES_TO_SEND]. *)
Definition main_select (to_fetch to_send : Z) : M W (list pyval) :=
  print [Lit "Fetching top "; Fmt (JInt to_fetch);
         Lit " stories from Hacker News..."] ;;
  story_ids <- fetch_top_stories to_fetch ;;
  print [Lit "Fetching story details..."] ;;
  ids <- lift (py_iter story_ids) ;;
  stories <- main_collect ids [] ;;
  print [Lit "Found "; Fmt (JInt (Z.of_nat (List.length stories)));
         Lit " stories with external URLs."] ;;
  lift (get_top_commented_stories stories to_send).

Definition main_with (to_fetch to_send : Z) : M W unit :=
  let missing := missing_variables in
  if truthy (JList (map JStr missing)) then
    print [Lit "Missing required environment variables:"] ;;
    for_each missing (fun var => print [Lit "  - "; Fmt (JStr var)]) ;;
    print [Lit (nl ++ "See script header for configuration instructions.")%string]
  else
    top_stories <- main_select to_fetch to_send ;;
    print [Lit nl; Lit "Sending top ";
           Fmt (JInt (Z.of_nat (List.length top_stories)));
           Lit (" most-discussed articles to Instapaper:" ++ nl)%string] ;;
    main_send 1 top_stories ;;
    print [Lit "Done!"].

Definition main : M W unit := main_with STORIES_TO_FETCH STORIES_TO_SEND.

End Script.

(** The names printed as missing, read back from the trace. *)
Definition reported_missing (t : list event) : list string :=
  flat_map (fun ev =>
    match ev with
    | Printed [Lit "  - "; Fmt (JStr var)] => [var]
    | _ => []
    end) t.

(** A world that answers from two fixed tables and has no state of its
    own. *)
Record table : Type := mkTable
  { answers : url -> get_outcome;
    smtp_answers : smtp_op -> option exn }.

Definition steady (t : table) : Net unit :=
  {| requests_get := fun u _ w => (answers t u, w);
     smtp_call := fun op w => (smtp_answers t op, w) |}.

Definition start : state unit := mkState tt [].

(* ------------------------------------------------------------------ *)
(** ** Notions the properties are stated with *)

(** The discussion count of a story: its [descendants], 0 when the key is
    absent; [None] when the story is no dict or the value is no integer. *)
Definition discussion_count (story : pyval) : option Z :=
  match py_get story "descendants" (JInt 0) with
  | Ok k => as_int k
  | Raise _ => None
  end.

Definition is_story (story : pyval) : Prop := discussion_count story <> None.

Definition comments (story : pyval) : Z :=
  match discussion_count story with
  | Some z => z
  | None => 0
  end.

(** A story next to its sort key, as [sorted] pairs them. *)
Definition keyed (story : pyval) : pyval * pyval :=
  (match py_get story "descendants" (JInt 0) with
   | Ok k => k
   | Raise _ => JNull
   end, story).

(** The answer the world gives to a request made in state [s], and the state
    the request leaves. *)
Definition answer {W} `{Net W} (u : url) (s : state W) : get_outcome :=
  fst (requests_get u 10 (world s)).

Definition requested {W} `{Net W} (u : url) (s : state W) : state W :=
  mkState (snd (requests_get u 10 (world s))) (trace s ++ [Requested u 10]).

(** A failed fetch: [requests.get] raises a [RequestException] (a timeout is
    one), or the status is one [raise_for_status] raises for. *)
Definition fetch_fails (o : get_outcome) : bool :=
  match o with
  | GetRaises e => is_RequestException e
  | GetReturns r => is_error_status (status_code r)
  end.

(** A successful answer whose body parses to [v]. *)
Definition answers_json (o : get_outcome) (v : pyval) : Prop :=
  exists code,
    o = GetReturns (mkResponse code (JsonValue v))
    /\ is_error_status code = false.

(** A world that, whenever it is asked for [u], gives an answer with [P]. *)
Definition always_answers {W} `{Net W} (u : url) (P : get_outcome -> Prop)
  : Prop :=
  forall w, P (fst (requests_get u 10 w)).

(** A story with a link and [count] comments, and one with no [url] at all. *)
Definition link_story (story : pyval) (count : Z) : Prop :=
  exists d u,
    story = JDict d /\ dict_lookup d "url" = Some u /\ u <> JNull
    /\ dict_lookup d "descendants" = Some (JInt count).

Definition text_story (story : pyval) (count : Z) : Prop :=
  exists d,
    story = JDict d /\ dict_lookup d "url" = None
    /\ dict_lookup d "descendants" = Some (JInt count).

(** What [fetch_story] returns, read off the answer to its request. *)
Definition fetched (o : get_outcome) : result pyval :=
  match
    match o with
    | GetRaises e => Raise e
    | GetReturns r => result_bind (raise_for_status r) (fun _ => json r)
    end
  with
  | Ok v => Ok v
  | Raise e => if is_RequestException e then Ok JNull else Raise e
  end.

(** A story with a [url] that is there and is not [None]. *)
Definition has_url (story : pyval) : Prop :=
  exists d u, story = JDict d /\ dict_lookup d "url" = Some u /\ u <> JNull.

(** A story whose [url] is a string with something in it. *)
Definition nonempty_url (story : pyval) : bool :=
  match story with
  | JDict d =>
      match dict_lookup d "url" with
      | Some (JStr u) => negb (String.eqb u "")
      | _ => false
      end
  | _ => false
  end.

(** The three settings by name. *)
Definition settings (cfg : config) : list (string * option string) :=
  [("ICLOUD_EMAIL", ICLOUD_EMAIL cfg);
   ("ICLOUD_APP_PASSWORD", ICLOUD_APP_PASSWORD cfg);
   ("INSTAPAPER_EMAIL", INSTAPAPER_EMAIL cfg)].

Definition is_absent (o : option string) : bool :=
  match o with None => true | Some _ => false end.

Definition is_blank (o : option string) : bool :=
  match o with
  | None => true
  | Some s => String.eqb s ""
  end.

(** The names of the variables that are not set, and of those that are not
    set or are set to the empty string. *)
Definition absent_names (cfg : config) : list string :=
  map fst (filter (fun p => is_absent (snd p)) (settings cfg)).

Definition blank_names (cfg : config) : list string :=
  map fst (filter (fun p => is_blank (snd p)) (settings cfg)).

(** The configuration with every variable set to the empty string unset. *)
Definition unset_empty (o : option string) : option string :=
  if is_blank o then None else o.

Definition unset_empties (cfg : config) : config :=
  mkConfig (unset_empty (ICLOUD_EMAIL cfg))
           (unset_empty (ICLOUD_APP_PASSWORD cfg))
           (unset_empty (INSTAPAPER_EMAIL cfg)).

(** What [main] prints when variables are missing. *)
Definition missing_report (names : list string) : list line :=
  [Lit "Missing required environment variables:"]
  :: map (fun var => [Lit "  - "; Fmt (JStr var)]) names
  ++ [[Lit (nl ++ "See script header for configuration instructions.")%string]].

(** The three lines [main] prints about a story before it sends it. *)
Definition announced (i : Z) (title url comments : pyval) : list event :=
  [Printed [Fmt (JInt i); Lit ". "; Fmt title];
   Printed [Lit "   "; Fmt url];
   Printed [Lit "   ("; Fmt comments; Lit " comments)"]].

(** The messages handed to [send_message], read back from the trace. *)
Definition submitted (t : list event) : list message :=
  flat_map (fun ev =>
    match ev with
    | Smtp (SMTP_send_message msg) => [msg]
    | _ => []
    end) t.

(** The calls of an SMTP session that come before the message is handed
    over. *)
Definition before_submission (op : smtp_op) : bool :=
  match op with
  | SMTP_open _ _ | SMTP_starttls | SMTP_login _ _ => true
  | SMTP_send_message _ | SMTP_exit => false
  end.

(** The email of a story, as the specification describes it. *)
Definition email (cfg : config) (url title : string) : message :=
  mkMessage "plain" url
    [("Subject", JStr title);
     ("From", env_value (ICLOUD_EMAIL cfg));
     ("To", env_value (INSTAPAPER_EMAIL cfg))].

(** On keys that are integers the sort of [sorted_reverse] is the plain
    insertion sort below, stated for any element type and integer measure. *)
Section Insertion.

Variable A : Type.
Variable weight : A -> Z.

Fixpoint insert_by (x : A) (l : list A) : list A :=
  match l with
  | [] => [x]
  | y :: l' =>
      if weight x <? weight y then y :: insert_by x l' else x :: y :: l'
  end.

Fixpoint sort_by (l : list A) : list A :=
  match l with
  | [] => []
  | x :: l' => insert_by x (sort_by l')
  end.

Definition heavier (a b : A) : Prop := weight b <= weight a.

Definition weighs (z : Z) (a : A) : bool := weight a =? z.

End Insertion.

Definition key_weight (kx : pyval * pyval) : Z :=
  match as_int (fst kx) with
  | Some z => z
  | None => 0
  end.

Definition int_keyed (kx : pyval * pyval) : Prop := as_int (fst kx) <> None.

(** Four stories and a list of them, used where a property is tried out. *)
Definition story_a : pyval :=
  JDict [("id", JInt 1); ("title", JStr "A"); ("url", JStr "http://a.example");
         ("descendants", JInt 10)].
Definition story_b : pyval :=
  JDict [("id", JInt 2); ("title", JStr "B"); ("descendants", JInt 50)].
Definition story_c : pyval :=
  JDict [("id", JInt 3); ("title", JStr "C"); ("url", JStr "http://c.example");
         ("descendants", JInt 30)].
Definition story_d : pyval :=
  JDict [("id", JInt 4); ("url", JStr "http://d.example");
         ("descendants", JInt 5)].
Definition story_e : pyval :=
  JDict [("id", JInt 6); ("title", JStr "E"); ("url", JStr "http://e.example");
         ("descendants", JInt 30)].

(** A job posting of the kind the item endpoint gives: the [url] is there,
    and empty. *)
Definition job_story : pyval :=
  JDict [("by", JStr "justin"); ("id", JInt 192327); ("score", JInt 6);
         ("title", JStr "Justin.tv is looking for a Lead Flash Engineer!");
         ("type", JStr "job"); ("url", JStr "")].

Definition timed_out : get_outcome := GetRaises (mkExn Timeout "timed out").

Definition ok_json (v : pyval) : get_outcome :=
  GetReturns (mkResponse 200 (JsonValue v)).

(** A world for trying things out: six top stories, of which 5 times out
    and 7 is gone, and a relay that accepts everything. *)
Definition sample_answers (u : url) : get_outcome :=
  match u with
  | HN_TOP_STORIES => ok_json (JList (map JInt [1; 2; 3; 4; 5; 6]))
  | HN_ITEM (JInt 1) => ok_json story_a
  | HN_ITEM (JInt 2) => ok_json story_b
  | HN_ITEM (JInt 3) => ok_json story_c
  | HN_ITEM (JInt 4) => ok_json story_d
  | HN_ITEM (JInt 6) => ok_json story_e
  | HN_ITEM (JInt 7) => ok_json JNull
  | HN_ITEM (JInt 192327) => ok_json job_story
  | HN_ITEM _ => timed_out
  end.

Definition sample_world : Net unit :=
  steady (mkTable sample_answers (fun _ => None)).

(** The same world with a relay that refuses the login. *)
Definition refused : exn :=
  mkExn SMTPAuthenticationError "(535, b'5.7.8 Error: authentication failed')".

Definition locked_world : Net unit :=
  steady
    (mkTable sample_answers
       (fun op =>
          match op with SMTP_login _ _ => Some refused | _ => None end)).

Definition sample_config : config :=
  mkConfig (Some "me@icloud.com") (Some "abcd-efgh") (Some "me@instapaper.com").

(** A configuration with one variable unset and another set to nothing. *)
Definition blank_config : config :=
  mkConfig None (Some "") (Some "me@instapaper.com").

(* ------------------------------------------------------------------ *)
(** ** Notions for the rest of the script *)

Definition is_dict (v : pyval) : Prop := exists d, v = JDict d.

(** A story whose [descendants] is there and is [None]. *)
Definition null_count (story : pyval) : Prop :=
  exists d, story = JDict d /\ dict_lookup d "descendants" = Some JNull.

Definition story_null : pyval :=
  JDict [("id", JInt 8); ("url", JStr "http://n.example");
         ("descendants", JNull)].

Definition item_request (story_id : pyval) : event :=
  Requested (HN_ITEM story_id) 10.

(** An answer that makes [fetch_story] raise: an exception of the request or
    of [response.json()] that is no [RequestException]. *)
Definition raises_uncaught (o : get_outcome) (e : exn) : Prop :=
  (o = GetRaises e
   \/ exists code,
        o = GetReturns (mkResponse code (JsonRaises e))
        /\ is_error_status code = false)
  /\ is_RequestException e = false.

(** A world where nothing can be reached. *)
Definition down_world : Net unit :=
  steady (mkTable (fun _ => timed_out)
                  (fun _ => Some (mkExn OSError "Network is unreachable"))).

(** A world whose answers are no stories: 1 is a number, 2 is a list, and
    for 3 [response.json()] raises a plain [ValueError], as it does on a body
    that does not parse with a [requests] older than 2.27 (later ones raise a
    [RequestException] there). *)
Definition odd_answers (u : url) : get_outcome :=
  match u with
  | HN_TOP_STORIES => ok_json (JList (map JInt [1; 2; 3]))
  | HN_ITEM (JInt 1) => ok_json (JInt 5)
  | HN_ITEM (JInt 2) => ok_json (JList [JInt 1])
  | HN_ITEM _ =>
      GetReturns (mkResponse 200
                    (JsonRaises (mkExn ValueError "Expecting value")))
  end.

Definition odd_world : Net unit := steady (mkTable odd_answers (fun _ => None)).

Definition is_request (ev : event) : bool :=
  match ev with Requested _ _ => true | _ => false end.

Definition is_smtp (ev : event) : bool :=
  match ev with Smtp _ => true | _ => false end.

Definition not_smtp (ev : event) : Prop := is_smtp ev = false.

Definition not_request (ev : event) : Prop := is_request ev = false.

(** [m] adds to the trace, and only events with [P]. *)
Definition adds_only {W A} (P : event -> Prop) (m : M W A) : Prop :=
  forall s, exists t, trace (snd (m s)) = trace s ++ t /\ Forall P t.

(** The message [send_to_instapaper] builds from a URL and whatever it is
    given as the title. *)
Definition composed (cfg : config) (url : string) (title : pyval) : message :=
  mkMessage "plain" url
    [("Subject", title);
     ("From", env_value (ICLOUD_EMAIL cfg));
     ("To", env_value (INSTAPAPER_EMAIL cfg))].

(** The calls of the [with] body, in their order. *)
Definition session_body (cfg : config) (msg : message) : list smtp_op :=
  [SMTP_starttls;
   SMTP_login (env_value (ICLOUD_EMAIL cfg))
              (env_value (ICLOUD_APP_PASSWORD cfg));
   SMTP_send_message msg].

Definition relay : smtp_op := SMTP_open "smtp.mail.me.com" 587.

(** The calls of one [send_to_instapaper] that got through the first [k]
    calls of the body; [k] is 0 when the connection could not be opened. *)
Definition session_calls (cfg : config) (msg : message) (k : nat)
  : list smtp_op :=
  match k with
  | O => [relay]
  | _ => relay :: firstn k (session_body cfg msg) ++ [SMTP_exit]
  end.

(** A story with a number where the link should be, and one with no title. *)
Definition story_num_fields : list (string * pyval) :=
  [("id", JInt 9); ("title", JStr "N"); ("url", JInt 5)].

Definition story_untitled_fields : list (string * pyval) :=
  [("id", JInt 10); ("url", JStr "http://u.example")].

Definition story_a_fields : list (string * pyval) :=
  [("id", JInt 1); ("title", JStr "A"); ("url", JStr "http://a.example");
   ("descendants", JInt 10)].

(** A relay at which the user interrupts the program. *)
Definition interrupt : exn := mkExn KeyboardInterrupt "".

Definition interrupted_world : Net unit :=
  steady (mkTable sample_answers
            (fun op => match op with
                       | SMTP_open _ _ => Some interrupt
                       | _ => None
                       end)).

(** An answer of the item endpoint that the script can take: something
    false, or a dict whose [descendants] is missing or an integer. *)
Definition item_ok (v : pyval) : Prop :=
  truthy v = false \/ (is_dict v /\ is_story v).

(** A world that behaves: the ranking endpoint answers with a list, every
    item request fails as a request or answers with something the script can
    take, and the relay fails with exceptions only. *)
Definition healthy {W} `{Net W} : Prop :=
  (forall w, exists l,
      answers_json (fst (requests_get HN_TOP_STORIES 10 w)) (JList l))
  /\ (forall story_id w,
        fetch_fails (fst (requests_get (HN_ITEM story_id) 10 w)) = true
        \/ exists v,
             answers_json (fst (requests_get (HN_ITEM story_id) 10 w)) v
             /\ item_ok v)
  /\ (forall op w e, fst (smtp_call op w) = Some e -> is_Exception e = true).

(** A small world that behaves, with a relay that refuses the login. *)
Definition tidy_answers (u : url) : get_outcome :=
  match u with
  | HN_TOP_STORIES => ok_json (JList [JInt 1; JInt 3; JInt 2; JInt 0])
  | HN_ITEM (JInt z) =>
      if z =? 1 then ok_json story_a
      else if z =? 2 then ok_json story_b
      else if z =? 3 then ok_json story_c
      else timed_out
  | HN_ITEM _ => timed_out
  end.

Definition tidy_world : Net unit :=
  steady
    (mkTable tidy_answers
       (fun op =>
          match op with SMTP_login _ _ => Some refused | _ => None end)).

(** An answer the loop of [main] passes over: something false, or a dict
    whose [url] is missing or [None]. *)
Definition no_url (v : pyval) : Prop :=
  truthy v = false
  \/ exists d,
       v = JDict d
       /\ (dict_lookup d "url" = None \/ dict_lookup d "url" = Some JNull).

(** A story whose [url] is a string. *)
Definition str_url (story : pyval) : Prop :=
  exists d u, story = JDict d /\ dict_lookup d "url" = Some (JStr u).

Definition is_open (ev : event) : bool :=
  match ev with Smtp (SMTP_open _ _) => true | _ => false end.

Definition is_exit (ev : event) : bool :=
  match ev with Smtp SMTP_exit => true | _ => false end.

(** How many connections a trace opens, and how many it leaves. *)
Definition opened (t : list event) : nat := List.length (filter is_open t).

Definition closed (t : list event) : nat := List.length (filter is_exit t).

(** A story with [url] set to [None]. *)
Definition story_null_url : pyval :=
  JDict [("id", JInt 11); ("title", JStr "Ask"); ("url", JNull);
         ("descendants", JInt 99)].

Definition null_url_world : Net unit :=
  steady (mkTable (fun _ => ok_json story_null_url) (fun _ => None)).




(* ------------------------------------------------------------------ *)
(** * Properties *)

(** ** Insertion sort *)

Section InsertionFacts.

Variable A : Type.
Variable weight : A -> Z.

Lemma insert_by_perm x l : Permutation (x :: l) (insert_by weight x l).
Proof.
  induction l as [|y l IH]; simpl; [reflexivity|].
  destruct (weight x <? weight y); [|reflexivity].
  rewrite perm_swap. now constructor.
Qed.

Lemma sort_by_perm l : Permutation l (sort_by weight l).
Proof.
  induction l as [|x l IH]; simpl; [constructor|].
  rewrite <- insert_by_perm. now constructor.
Qed.

Lemma insert_by_sorted x l :
  StronglySorted (heavier weight) l ->
  StronglySorted (heavier weight) (insert_by weight x l).
Proof.
  induction 1 as [|y l Hl IH Hy]; simpl.
  - repeat constructor.
  - destruct (weight x <? weight y) eqn:E.
    + constructor; [assumption|].
      apply (Permutation_Forall (insert_by_perm x l)).
      constructor; [|assumption].
      apply Z.ltb_lt in E. unfold heavier. lia.
    + apply Z.ltb_ge in E.
      constructor; [now constructor|].
      constructor; [exact E|].
      eapply Forall_impl; [|exact Hy].
      unfold heavier. intros; lia.
Qed.

Lemma sort_by_sorted l : StronglySorted (heavier weight) (sort_by weight l).
Proof.
  induction l; simpl; [constructor | now apply insert_by_sorted].
Qed.

Lemma insert_by_filter z x l :
  filter (weighs weight z) (insert_by weight x l)
  = filter (weighs weight z) (x :: l).
Proof.
  induction l as [|y l IH]; [reflexivity|].
  cbn [insert_by]. destruct (weight x <? weight y) eqn:E; [|reflexivity].
  cbn [filter] in *. rewrite IH.
  unfold weighs. apply Z.ltb_lt in E.
  destruct (weight x =? z) eqn:Ex; [|reflexivity].
  destruct (weight y =? z) eqn:Ey; [|reflexivity].
  apply Z.eqb_eq in Ex, Ey. lia.
Qed.

Lemma sort_by_filter z l :
  filter (weighs weight z) (sort_by weight l) = filter (weighs weight z) l.
Proof.
  induction l as [|x l IH]; [reflexivity|].
  cbn [sort_by]. rewrite insert_by_filter. cbn [filter]. now rewrite IH.
Qed.

Lemma sort_by_length l : List.length (sort_by weight l) = List.length l.
Proof. symmetry. apply Permutation_length, sort_by_perm. Qed.

Lemma firstn_sorted (R : A -> A -> Prop) k l :
  StronglySorted R l -> StronglySorted R (firstn k l).
Proof.
  intros Hl. revert k.
  induction Hl as [|x l Hl IH Hx]; intros [|k]; simpl; try constructor.
  - apply IH.
  - rewrite Forall_forall in *. intros y Hy.
    apply Hx. rewrite <- (firstn_skipn k l). apply in_or_app. now left.
Qed.

Lemma firstn_filter (f : A -> bool) k l :
  exists rest, filter f l = filter f (firstn k l) ++ rest.
Proof.
  exists (filter f (skipn k l)).
  now rewrite <- filter_app, firstn_skipn.
Qed.

Lemma slice_to_firstn (l : list A) n : exists k, slice_to l n = firstn k l.
Proof. unfold slice_to. destruct (0 <=? n); eauto. Qed.

End InsertionFacts.

Lemma sort_by_map {A B} (f : A -> B) (w : B -> Z) l :
  sort_by w (map f l) = map f (sort_by (fun a => w (f a)) l).
Proof.
  induction l as [|x l IH]; [reflexivity|].
  cbn [map sort_by]. rewrite IH. clear IH.
  induction (sort_by (fun a => w (f a)) l) as [|y m IH]; [reflexivity|].
  cbn [map insert_by]. destruct (w (f x) <? w (f y)); [|reflexivity].
  now rewrite IH.
Qed.

(** ** The sort of the script on integer keys *)

Lemma py_lt_int a b x y :
  as_int a = Some x -> as_int b = Some y -> py_lt a b = Ok (x <? y).
Proof.
  destruct a, b; simpl; intros Ha Hb; try discriminate;
    injection Ha as <-; injection Hb as <-; reflexivity.
Qed.

Lemma insert_desc_int kx l :
  int_keyed kx -> Forall int_keyed l ->
  insert_desc kx l = Ok (insert_by key_weight kx l).
Proof.
  intros Hx Hl. induction Hl as [|ky l Hy Hl IH]; [reflexivity|].
  unfold int_keyed in Hx, Hy. cbn [insert_desc insert_by].
  unfold key_weight at 1 2.
  destruct (as_int (fst kx)) as [x|] eqn:Ex; [|congruence].
  destruct (as_int (fst ky)) as [y|] eqn:Ey; [|congruence].
  rewrite (py_lt_int _ _ Ex Ey). cbn [result_bind].
  destruct (x <? y); [|reflexivity].
  now rewrite IH.
Qed.

Lemma sort_desc_int l :
  Forall int_keyed l -> sort_desc l = Ok (sort_by key_weight l).
Proof.
  induction 1 as [|kx l Hx Hl IH]; [reflexivity|].
  cbn [sort_desc sort_by]. rewrite IH. cbn [result_bind].
  apply insert_desc_int; [assumption|].
  now apply (Permutation_Forall (sort_by_perm key_weight l)).
Qed.

Lemma sort_by_ext {A} (w w' : A -> Z) l :
  (forall a, w a = w' a) -> sort_by w l = sort_by w' l.
Proof.
  intros E. induction l as [|x l IH]; [reflexivity|].
  cbn [sort_by]. rewrite IH. clear IH.
  induction (sort_by w' l) as [|y m IH]; [reflexivity|].
  cbn [insert_by]. now rewrite IH, !E.
Qed.

Lemma key_weight_keyed story : key_weight (keyed story) = comments story.
Proof.
  unfold key_weight, keyed, comments, discussion_count.
  now destruct (py_get story "descendants" (JInt 0)).
Qed.

Lemma is_story_keyed story : is_story story -> int_keyed (keyed story).
Proof.
  unfold is_story, int_keyed, keyed, discussion_count.
  now destruct (py_get story "descendants" (JInt 0)).
Qed.

Lemma keys_of_stories stories :
  Forall is_story stories ->
  exists keys,
    result_map (fun s => py_get s "descendants" (JInt 0)) stories = Ok keys
    /\ combine keys stories = map keyed stories.
Proof.
  induction 1 as [|s l Hs Hl (keys & E & C)]; [now exists []|].
  cbn [result_map map]. rewrite E.
  unfold is_story, discussion_count in Hs. unfold keyed at 1.
  destruct (py_get s "descendants" (JInt 0)) as [k|e]; [|congruence].
  exists (k :: keys). cbn [result_bind combine]. now rewrite C.
Qed.

(** On stories, [get_top_commented_stories] is a slice of the insertion sort
    by discussion count. *)
Lemma get_top_commented_stories_sort stories n :
  Forall is_story stories ->
  get_top_commented_stories stories n
  = Ok (slice_to (sort_by comments stories) n).
Proof.
  intros Hs. unfold get_top_commented_stories, sorted_reverse.
  destruct (keys_of_stories Hs) as (keys & E & C).
  rewrite E. cbn [result_bind]. rewrite C, sort_desc_int.
  - cbn [result_bind]. rewrite sort_by_map, map_map. cbn [keyed snd].
    rewrite map_id. do 2 f_equal. apply sort_by_ext, key_weight_keyed.
  - rewrite Forall_map. eapply Forall_impl; [|exact Hs].
    apply is_story_keyed.
Qed.

Lemma result_map_length {A B} (f : A -> result B) l r :
  result_map f l = Ok r -> List.length r = List.length l.
Proof.
  revert r. induction l as [|a l IH]; intros r; cbn [result_map].
  - now intros [= <-].
  - destruct (f a); [|discriminate]. cbn [result_bind].
    destruct (result_map f l) as [bs|]; [|discriminate].
    intros [= <-]. cbn [List.length]. now rewrite (IH bs).
Qed.

Lemma insert_desc_length kx l r :
  insert_desc kx l = Ok r -> List.length r = S (List.length l).
Proof.
  revert r. induction l as [|ky l IH]; intros r; cbn [insert_desc].
  - now intros [= <-].
  - destruct (py_lt (fst kx) (fst ky)) as [[|]|]; cbn [result_bind];
      [|now intros [= <-]|discriminate].
    destruct (insert_desc kx l) as [m|]; [|discriminate].
    intros [= <-]. cbn [List.length]. now rewrite (IH m).
Qed.

Lemma sort_desc_length l r :
  sort_desc l = Ok r -> List.length r = List.length l.
Proof.
  revert r. induction l as [|kx l IH]; intros r; cbn [sort_desc].
  - now intros [= <-].
  - destruct (sort_desc l) as [m|]; [|discriminate]. cbn [result_bind].
    intros E. apply insert_desc_length in E.
    cbn [List.length]. now rewrite E, (IH m).
Qed.

Lemma sorted_reverse_length key l r :
  sorted_reverse key l = Ok r -> List.length r = List.length l.
Proof.
  unfold sorted_reverse.
  destruct (result_map key l) as [keys|] eqn:K; [|discriminate].
  cbn [result_bind].
  destruct (sort_desc (combine keys l)) as [kl|] eqn:S; [|discriminate].
  intros [= <-]. apply sort_desc_length in S. apply result_map_length in K.
  rewrite length_map, S, length_combine. lia.
Qed.

Lemma slice_to_length {A} (l : list A) n :
  0 <= n ->
  Z.of_nat (List.length (slice_to l n)) = Z.min (Z.of_nat (List.length l)) n.
Proof.
  intros Hn. unfold slice_to.
  destruct (0 <=? n) eqn:E; [|apply Z.leb_gt in E; lia].
  rewrite length_firstn. lia.
Qed.

Lemma insert_desc_perm kx l r :
  insert_desc kx l = Ok r -> Permutation (kx :: l) r.
Proof.
  revert r. induction l as [|ky l IH]; intros r; cbn [insert_desc].
  - now intros [= <-].
  - destruct (py_lt (fst kx) (fst ky)) as [[|]|]; cbn [result_bind];
      [|now intros [= <-]|discriminate].
    destruct (insert_desc kx l) as [m|]; [|discriminate].
    intros [= <-]. rewrite perm_swap. constructor. now apply IH.
Qed.

Lemma sort_desc_perm l r : sort_desc l = Ok r -> Permutation l r.
Proof.
  revert r. induction l as [|kx l IH]; intros r; cbn [sort_desc].
  - now intros [= <-].
  - destruct (sort_desc l) as [m|]; [|discriminate]. cbn [result_bind].
    intros E. apply insert_desc_perm in E. rewrite <- E.
    constructor. now apply IH.
Qed.

Lemma map_snd_combine {A B} (l : list A) (m : list B) :
  List.length l = List.length m -> map snd (combine l m) = m.
Proof.
  revert m. induction l as [|a l IH]; intros [|b m]; try discriminate.
  - reflexivity.
  - intros [= E]. cbn. now rewrite IH.
Qed.

Lemma sorted_reverse_perm key l r :
  sorted_reverse key l = Ok r -> Permutation l r.
Proof.
  unfold sorted_reverse.
  destruct (result_map key l) as [keys|] eqn:K; [|discriminate].
  cbn [result_bind].
  destruct (sort_desc (combine keys l)) as [kl|] eqn:S; [|discriminate].
  intros [= <-]. apply sort_desc_perm in S. apply result_map_length in K.
  rewrite <- (map_snd_combine keys l K). now apply Permutation_map.
Qed.

(** The stories [get_top_commented_stories] returns are stories it was
    given. *)
Lemma get_top_commented_stories_incl stories n out :
  get_top_commented_stories stories n = Ok out -> incl out stories.
Proof.
  unfold get_top_commented_stories.
  destruct (sorted_reverse _ stories) as [l|] eqn:E; [|discriminate].
  intros [= <-] story Hs. apply sorted_reverse_perm in E.
  apply (Permutation_in _ (Permutation_sym E)).
  destruct (slice_to_firstn l n) as [k Hk]. rewrite Hk in Hs.
  rewrite <- (firstn_skipn k l). apply in_or_app. now left.
Qed.

(* ------------------------------------------------------------------ *)
(** ** Ranking *)

(** C2. On every list of stories and for every [n],
    [get_top_commented_stories] returns a list in descending order of
    discussion count ([descendants], 0 when absent), and the stories of the
    result that share a discussion count are the first stories of the input
    with that count, in the order the input has them. *)
Theorem get_top_commented_stories_sorted_stable stories n :
  Forall is_story stories ->
  exists out,
    get_top_commented_stories stories n = Ok out
    /\ StronglySorted (heavier comments) out
    /\ forall z, exists rest,
         filter (weighs comments z) stories
         = filter (weighs comments z) out ++ rest.
Proof.
  intros Hs. rewrite (get_top_commented_stories_sort n Hs).
  eexists; split; [reflexivity|].
  destruct (slice_to_firstn (sort_by comments stories) n) as [k ->].
  split.
  - apply firstn_sorted, sort_by_sorted.
  - intros z. rewrite <- (sort_by_filter comments z stories).
    apply firstn_filter.
Qed.

Lemma get_top_commented_stories_sorted_stable_witness :
  exists out,
    get_top_commented_stories [story_a; story_b; story_c; story_d; story_e] 3
    = Ok out
    /\ StronglySorted (heavier comments) out
    /\ forall z, exists rest,
         filter (weighs comments z)
                [story_a; story_b; story_c; story_d; story_e]
         = filter (weighs comments z) out ++ rest.
Proof.
  apply (@get_top_commented_stories_sorted_stable
           [story_a; story_b; story_c; story_d; story_e] 3).
  repeat constructor; discriminate.
Defined.

(** Whatever [get_top_commented_stories] returns for a bound that is at
    least 0, on any list at all, has min(length of the input, n) elements. *)
Lemma get_top_commented_stories_length_any stories n out :
  0 <= n ->
  get_top_commented_stories stories n = Ok out ->
  Z.of_nat (List.length out) = Z.min (Z.of_nat (List.length stories)) n.
Proof.
  intros Hn. unfold get_top_commented_stories.
  destruct (sorted_reverse _ stories) as [l|] eqn:E; [|discriminate].
  intros [= <-]. apply sorted_reverse_length in E.
  rewrite slice_to_length, E; trivial.
Qed.

(** C3. For every list of stories and every bound [n] (a count),
    [get_top_commented_stories] returns a list of min(length of the input, n)
    stories: with fewer than [n] stories the result is shorter, and there is
    no error. *)
Theorem get_top_commented_stories_length stories (n : nat) :
  Forall is_story stories ->
  exists out,
    get_top_commented_stories stories (Z.of_nat n) = Ok out
    /\ List.length out = Nat.min (List.length stories) n.
Proof.
  intros Hs.
  destruct (get_top_commented_stories stories (Z.of_nat n)) as [out|e] eqn:E.
  - exists out. split; [reflexivity|].
    apply get_top_commented_stories_length_any in E; lia.
  - rewrite (get_top_commented_stories_sort (Z.of_nat n) Hs) in E.
    discriminate.
Qed.

Lemma get_top_commented_stories_length_witness :
  exists out,
    get_top_commented_stories [story_a; story_c] (Z.of_nat 5) = Ok out
    /\ List.length out = Nat.min 2 5.
Proof.
  apply (@get_top_commented_stories_length [story_a; story_c] 5).
  repeat constructor; discriminate.
Defined.

(* ------------------------------------------------------------------ *)
(** ** Running the script *)

Section ScriptFacts.

Context {W : Type} `{Net W}.

Lemma print_eq (l : line) (s : state W) :
  print l s = (Ok tt, mkState (world s) (trace s ++ [Printed l])).
Proof. reflexivity. Qed.

Lemma get_eq u (s : state W) :
  get u 10 s
  = (match answer u s with
     | GetRaises e => Raise e
     | GetReturns r => Ok r
     end, requested u s).
Proof.
  unfold get, bind, emit, answer, requested. cbn.
  now destruct (requests_get u 10 (world s)) as [[e|r] w].
Qed.

Lemma fetch_story_eq story_id (s : state W) :
  fetch_story story_id s
  = (fetched (answer (HN_ITEM story_id) s), requested (HN_ITEM story_id) s).
Proof.
  unfold fetch_story, bind, attempt. rewrite get_eq. unfold fetched, lift.
  destruct (answer (HN_ITEM story_id) s) as [e|r]; cbn.
  - now destruct (is_RequestException e).
  - destruct (raise_for_status r) as [[]|e]; cbn.
    + destruct (json r) as [v|e]; cbn; [reflexivity|].
      now destruct (is_RequestException e).
    + now destruct (is_RequestException e).
Qed.

Lemma fetched_fails o : fetch_fails o = true -> fetched o = Ok JNull.
Proof.
  unfold fetched, fetch_fails, raise_for_status.
  destruct o as [e|r]; intros ->; reflexivity.
Qed.

Lemma fetched_json o v : answers_json o v -> fetched o = Ok v.
Proof.
  intros (code & -> & Hc). unfold fetched, raise_for_status. cbn.
  now rewrite Hc.
Qed.

Lemma main_collect_cons story_id rest stories (s : state W) :
  main_collect (story_id :: rest) stories s
  = match fetched (answer (HN_ITEM story_id) s) with
    | Ok story =>
        match keeps story with
        | Ok keep =>
            main_collect rest (if keep then stories ++ [story] else stories)
                         (requested (HN_ITEM story_id) s)
        | Raise e => (Raise e, requested (HN_ITEM story_id) s)
        end
    | Raise e => (Raise e, requested (HN_ITEM story_id) s)
    end.
Proof.
  cbn [main_collect]. unfold bind at 1. rewrite fetch_story_eq.
  destruct (fetched _) as [story|e]; [|reflexivity].
  unfold bind, lift. now destruct (keeps story).
Qed.


Lemma keeps_has_url story : keeps story = Ok true -> has_url story.
Proof.
  unfold keeps, has_external_url, py_get.
  destruct (truthy story); [|discriminate].
  destruct story as [| | | | |d]; try discriminate.
  unfold dict_get. cbn [result_bind].
  destruct (dict_lookup d "url") as [u|] eqn:E; [|discriminate].
  destruct u; try discriminate; intros _; exists d; eexists;
    (split; [reflexivity|split; [exact E|discriminate]]).
Qed.

Lemma main_collect_has_url story_ids stories (s : state W) out s' :
  main_collect story_ids stories s = (Ok out, s') ->
  Forall has_url stories -> Forall has_url out.
Proof.
  revert stories s. induction story_ids as [|story_id rest IH]; intros stories s.
  - cbn. now intros [= <- _].
  - rewrite main_collect_cons.
    destruct (fetched _) as [story|e]; [|discriminate].
    destruct (keeps story) as [[|]|e] eqn:K; [| |discriminate]; intros E Hs.
    + apply (IH _ _ E). apply Forall_app. split; [assumption|].
      constructor; [now apply keeps_has_url | constructor].
    + now apply (IH _ _ E).
Qed.

(* ------------------------------------------------------------------ *)
(** ** Fetching and filtering *)

(** Every story the loop of [main] over the identifiers keeps is a dict
    whose [url] is there and is not [None]; nothing else is passed on to the
    ranking. *)
Theorem main_collect_keeps_stories_with_url story_ids (s : state W) out s' :
  main_collect story_ids [] s = (Ok out, s') -> Forall has_url out.
Proof.
  intros E. eapply main_collect_has_url; [exact E | constructor].
Qed.


(** C10. When the item endpoint answers with success and the body parses
    to [null], [fetch_story] returns [None] as it does for a failed fetch, the
    guard of the loop is false without calling [has_external_url] (which would
    raise on [None]), and the loop goes on to the next identifier with the
    stories it has. *)
Theorem null_story_is_skipped story_id (s : state W) :
  answers_json (answer (HN_ITEM story_id) s) JNull ->
  fetch_story story_id s = (Ok JNull, requested (HN_ITEM story_id) s)
  /\ keeps JNull = Ok false
  /\ has_external_url JNull = Raise (no_attribute "get")
  /\ forall rest stories,
       main_collect (story_id :: rest) stories s
       = main_collect rest stories (requested (HN_ITEM story_id) s).
Proof.
  intros Hj. apply fetched_json in Hj. repeat split.
  - now rewrite fetch_story_eq, Hj.
  - intros rest stories. now rewrite main_collect_cons, Hj.
Qed.

(* ------------------------------------------------------------------ *)
(** ** The configuration check *)

Lemma missing_variables_blank cfg : missing_variables cfg = blank_names cfg.
Proof.
  destruct cfg as [[a|] [b|] [c|]];
    unfold missing_variables, blank_names, settings; cbn;
    repeat match goal with
           | |- context [String.eqb ?x ""] => destruct (String.eqb x "")
           end; reflexivity.
Qed.

Lemma missing_variables_unset cfg :
  missing_variables (unset_empties cfg) = missing_variables cfg.
Proof.
  destruct cfg as [[a|] [b|] [c|]];
    unfold missing_variables, unset_empties, unset_empty; cbn;
    repeat match goal with
           | |- context [String.eqb ?x ""] =>
               let E := fresh in destruct (String.eqb x "") eqn:E; cbn;
               rewrite ?E; cbn
           end; reflexivity.
Qed.

Lemma for_each_print (f : string -> line) names (s : state W) :
  for_each names (fun var => print (f var)) s
  = (Ok tt,
     mkState (world s) (trace s ++ map (fun var => Printed (f var)) names)).
Proof.
  revert s. induction names as [|var names IH]; intros s; cbn [for_each map].
  - unfold ret. now rewrite app_nil_r; destruct s.
  - unfold bind. rewrite print_eq, IH. cbn [world trace].
    now rewrite <- app_assoc.
Qed.

Lemma main_with_missing cfg to_fetch to_send (s : state W) :
  missing_variables cfg <> [] ->
  main_with cfg to_fetch to_send s
  = (Ok tt,
     mkState (world s)
       (trace s ++ map Printed (missing_report (missing_variables cfg)))).
Proof.
  intros Hm. unfold main_with.
  destruct (missing_variables cfg) as [|var names]; [congruence|].
  cbn [map truthy]. unfold bind. rewrite print_eq, for_each_print, print_eq.
  cbn [world trace]. unfold missing_report. cbn [map app].
  now rewrite map_app, map_map, <- !app_assoc.
Qed.

Lemma reported_missing_report names :
  reported_missing (map Printed (missing_report names)) = names.
Proof.
  unfold missing_report, reported_missing.
  rewrite map_cons, map_app, map_map. cbn [flat_map app].
  rewrite flat_map_app. cbn [flat_map app]. rewrite app_nil_r.
  induction names as [|var names IH]; [reflexivity|].
  cbn [map flat_map app]. now rewrite IH.
Qed.

(** C4, as the script has it. If any of the three variables is not set or
    is set to the empty string, [main] returns after printing only: the world
    is left as it was, nothing but printed lines joins the trace, and the
    names printed are exactly those of the variables that are not set or are
    empty.  So a request or an SMTP call takes place only when all three are
    set to something. *)
Theorem missing_configuration_stops_main cfg (s : state W) :
  blank_names cfg <> [] ->
  exists lines,
    main cfg s = (Ok tt, mkState (world s) (trace s ++ map Printed lines))
    /\ reported_missing (map Printed lines) = blank_names cfg.
Proof.
  intros Hb. rewrite <- missing_variables_blank in *.
  exists (missing_report (missing_variables cfg)). split.
  - now apply main_with_missing.
  - apply reported_missing_report.
Qed.

(** C9. A variable set to the empty string counts as one that is not set:
    [main] runs as it would with the variable unset, it names the variable
    among the missing ones, and it prints and does nothing else. *)
Theorem empty_variable_counts_as_missing cfg name (s : state W) :
  In (name, Some "") (settings cfg) ->
  main cfg s = main (unset_empties cfg) s
  /\ exists lines,
       main cfg s = (Ok tt, mkState (world s) (trace s ++ map Printed lines))
       /\ In name (reported_missing (map Printed lines)).
Proof.
  intros Hn.
  assert (Hb : In name (missing_variables cfg)).
  { rewrite missing_variables_blank. unfold blank_names.
    apply (in_map fst _ _) in Hn as Hf. cbn [fst] in Hf.
    change name with (fst (name, Some "")). apply in_map.
    apply filter_In. now split. }
  assert (Hm : missing_variables cfg <> []) by (intros E; now rewrite E in Hb).
  unfold main. split.
  - rewrite !main_with_missing, missing_variables_unset; trivial.
    now rewrite missing_variables_unset.
  - exists (missing_report (missing_variables cfg)).
    rewrite main_with_missing, reported_missing_report; auto.
Qed.

(* ------------------------------------------------------------------ *)
(** ** Sending *)

Lemma smtp_eq op (s : state W) :
  smtp op s
  = (match fst (smtp_call op (world s)) with
     | Some e => Raise e
     | None => Ok tt
     end,
     mkState (snd (smtp_call op (world s))) (trace s ++ [Smtp op])).
Proof.
  unfold smtp, bind, emit. cbn.
  now destruct (smtp_call op (world s)) as [[e|] w].
Qed.

Lemma submitted_app t1 t2 : submitted (t1 ++ t2) = submitted t1 ++ submitted t2.
Proof. apply flat_map_app. Qed.

(** C8. For every URL and title, the one message [send_to_instapaper] hands
    to the relay, if it gets that far, is a plain-text message whose body is
    the URL and whose headers are [Subject], the title; [From], the
    configured sender; [To], the configured recipient, once.  It gets that
    far whenever opening the connection, STARTTLS and the login succeed. *)
Theorem send_to_instapaper_email cfg url title (s : state W) :
  exists sent,
    submitted (trace (snd (send_to_instapaper cfg (JStr url) (JStr title) s)))
    = submitted (trace s) ++ sent
    /\ Forall (fun msg =>
                 subtype msg = "plain"
                 /\ payload msg = url
                 /\ headers msg
                    = [("Subject", JStr title);
                       ("From", env_value (ICLOUD_EMAIL cfg));
                       ("To", env_value (INSTAPAPER_EMAIL cfg))]) sent
    /\ (List.length sent <= 1)%nat
    /\ ((forall op w, before_submission op = true ->
                      fst (smtp_call op w) = None) ->
        sent = [email cfg url title]).
Proof.
  unfold send_to_instapaper, with_SMTP, bind, attempt, lift.
  cbn [MIMEText].
  change (set_header (set_header (set_header _ _ _) _ _) _ _)
    with (email cfg url title).
  repeat (rewrite smtp_eq;
          match goal with
          | |- context [fst (smtp_call ?op ?w)] =>
              let E := fresh "E" in destruct (fst (smtp_call op w)) eqn:E
          end; cbn [world trace fst snd]).
  all: rewrite ?submitted_app; cbn [submitted flat_map app];
    rewrite ?app_nil_r.
  all: first
    [ exists [email cfg url title];
      split; [reflexivity|]; split; [now repeat constructor|];
      split; [cbn; lia | reflexivity]
    | exists []; split; [now rewrite app_nil_r|]; split; [constructor|];
      split; [cbn; lia|]; intros Hall; exfalso;
      match goal with
      | E : fst (smtp_call _ _) = Some _ |- _ =>
          rewrite Hall in E by reflexivity; discriminate
      end ].
Qed.

Lemma main_send_one_eq cfg i d url (s : state W) :
  dict_lookup d "url" = Some url ->
  main_send_one cfg i (JDict d) s
  = match
      send_to_instapaper cfg url (dict_get d "title" (JStr "Untitled"))
        (mkState (world s)
           (trace s ++ announced i (dict_get d "title" (JStr "Untitled")) url
                         (dict_get d "descendants" (JInt 0))))
    with
    | (Ok _, s1) =>
        (Ok tt, mkState (world s1) (trace s1 ++ [Printed sent_line]))
    | (Raise e, s1) =>
        if is_Exception e
        then (Ok tt, mkState (world s1) (trace s1 ++ [Printed (failed_line e)]))
        else (Raise e, s1)
    end.
Proof.
  intros Hu. unfold main_send_one, bind, lift, attempt, py_get, py_getitem.
  rewrite Hu, !print_eq. cbn [world trace]. unfold announced.
  rewrite <- !app_assoc. cbn [app].
  destruct (send_to_instapaper _ _ _ _) as [[[]|e] s1]; [reflexivity|].
  now destruct (is_Exception e).
Qed.

Lemma main_send_app cfg i before after (s : state W) :
  main_send cfg i (before ++ after) s
  = match main_send cfg i before s with
    | (Ok _, s') => main_send cfg (i + Z.of_nat (List.length before)) after s'
    | (Raise e, s') => (Raise e, s')
    end.
Proof.
  revert i s. induction before as [|story before IH]; intros i s.
  - cbn. now rewrite Z.add_0_r.
  - rewrite <- app_comm_cons. cbn [main_send List.length]. unfold bind.
    destruct (main_send_one cfg i story s) as [[[]|e] s1]; [|reflexivity].
    rewrite IH. now replace (i + 1 + Z.of_nat (List.length before))
      with (i + Z.of_nat (S (List.length before))) by lia.
Qed.

(** C6. When, in the loop over the selected stories, sending one story
    fails with an exception, the exception is caught there, a line with its
    reason is printed, and the loop goes on with the stories after it, in
    their order and under the next number. *)
Theorem send_failure_does_not_stop_the_loop
    cfg i before d url after e (s s_mid s_fail : state W) :
  main_send cfg i before s = (Ok tt, s_mid) ->
  dict_lookup d "url" = Some url ->
  send_to_instapaper cfg url (dict_get d "title" (JStr "Untitled"))
    (mkState (world s_mid)
       (trace s_mid
        ++ announced (i + Z.of_nat (List.length before))
             (dict_get d "title" (JStr "Untitled")) url
             (dict_get d "descendants" (JInt 0))))
  = (Raise e, s_fail) ->
  is_Exception e = true ->
  main_send cfg i (before ++ JDict d :: after) s
  = main_send cfg (i + Z.of_nat (List.length before) + 1) after
      (mkState (world s_fail) (trace s_fail ++ [Printed (failed_line e)])).
Proof.
  intros Hb Hu Hs He. rewrite main_send_app, Hb.
  cbn [main_send]. unfold bind at 1.
  now rewrite (main_send_one_eq _ _ _ _ Hu), Hs, He.
Qed.

Lemma send_to_instapaper_raises cfg url title (s s' : state W) e :
  (forall op w e', fst (smtp_call op w) = Some e' -> is_Exception e' = true) ->
  send_to_instapaper cfg url title s = (Raise e, s') ->
  is_Exception e = true.
Proof.
  intros Hw. unfold send_to_instapaper, with_SMTP, bind, attempt, lift.
  destruct url; cbn [MIMEText]; try (now intros [= <- _]).
  repeat (rewrite smtp_eq;
          match goal with
          | |- context [fst (smtp_call ?op ?w)] =>
              let E := fresh "E" in destruct (fst (smtp_call op w)) eqn:E
          end; cbn [world trace fst snd]).
  all: intros [= <- _] || discriminate.
  all: eapply Hw; eassumption.
Qed.

(** X1. With a relay whose failures are exceptions, the loop over the selected
    stories runs to its end whatever fails on the way. *)
Lemma main_send_completes cfg i top_stories (s : state W) :
  (forall op w e, fst (smtp_call op w) = Some e -> is_Exception e = true) ->
  Forall has_url top_stories ->
  exists s', main_send cfg i top_stories s = (Ok tt, s').
Proof.
  intros Hw Ht. revert i s.
  induction Ht as [|story rest (d & u & -> & Hu & _) _ IH]; intros i s.
  - now exists s.
  - cbn [main_send]. unfold bind. rewrite (main_send_one_eq _ _ _ _ Hu).
    destruct (send_to_instapaper _ _ _ _) as [[[]|e] s1] eqn:E.
    + apply IH.
    + rewrite (send_to_instapaper_raises _ _ _ _ Hw E). apply IH.
Qed.

(* ------------------------------------------------------------------ *)
(** ** The whole selection *)

Lemma fetch_top_stories_json n v (s : state W) :
  answers_json (answer HN_TOP_STORIES s) v ->
  fetch_top_stories n s = (py_slice_to v n, requested HN_TOP_STORIES s).
Proof.
  intros (code & E & Hc). unfold fetch_top_stories, bind, lift.
  rewrite get_eq, E. unfold raise_for_status. cbn. now rewrite Hc.
Qed.

Lemma link_story_keeps story count : link_story story count -> keeps story = Ok true.
Proof.
  intros (d & u & -> & Hu & Hn & _). unfold keeps, has_external_url, py_get.
  destruct d as [|kv d]; [discriminate|]. cbn [truthy result_bind].
  unfold dict_get. rewrite Hu. now destruct u.
Qed.

Lemma text_story_keeps story count : text_story story count -> keeps story = Ok false.
Proof.
  intros (d & -> & Hu & Hd). unfold keeps, has_external_url, py_get.
  destruct d as [|kv d]; [discriminate|]. cbn [truthy result_bind].
  unfold dict_get. now rewrite Hu.
Qed.

Lemma link_story_count story count :
  link_story story count -> discussion_count story = Some count.
Proof.
  intros (d & u & -> & _ & _ & Hd). unfold discussion_count, py_get, dict_get.
  now rewrite Hd.
Qed.

(** X2. Every story [main] selects carries a [url] that is there and is not
    [None]: the loop over the selection finds the [url] it reads. *)
Lemma main_select_has_url to_fetch to_send (s s' : state W) top_stories :
  main_select to_fetch to_send s = (Ok top_stories, s') ->
  Forall has_url top_stories.
Proof.
  unfold main_select, bind. rewrite print_eq.
  destruct (fetch_top_stories to_fetch _) as [[story_ids|e] s1];
    [|discriminate].
  rewrite print_eq. unfold lift at 1.
  destruct (py_iter story_ids) as [ids|e]; [|discriminate].
  destruct (main_collect ids [] _) as [[stories|e] s2] eqn:E; [|discriminate].
  rewrite print_eq. unfold lift. intros [= Hg _].
  apply main_collect_has_url in E; [|constructor].
  apply get_top_commented_stories_incl in Hg.
  rewrite Forall_forall in *. auto.
Qed.

(** C7. Fetch bound 5, send bound 2, identifiers 1 to 5: stories 1, 3 and 4
    have a link and 10, 30 and 5 comments, story 2 has 50 comments and no
    [url], and the fetch of story 5 fails.  Then what [main] selects is story
    3 followed by story 1. *)
Theorem example_scenario_selects_3_then_1
    story_1 story_2 story_3 story_4 more (s : state W) :
  always_answers HN_TOP_STORIES
    (fun o => answers_json o (JList (map JInt [1; 2; 3; 4; 5] ++ more))) ->
  always_answers (HN_ITEM (JInt 1)) (fun o => answers_json o story_1) ->
  always_answers (HN_ITEM (JInt 2)) (fun o => answers_json o story_2) ->
  always_answers (HN_ITEM (JInt 3)) (fun o => answers_json o story_3) ->
  always_answers (HN_ITEM (JInt 4)) (fun o => answers_json o story_4) ->
  always_answers (HN_ITEM (JInt 5)) (fun o => fetch_fails o = true) ->
  link_story story_1 10 ->
  text_story story_2 50 ->
  link_story story_3 30 ->
  link_story story_4 5 ->
  fst (main_select 5 2 s) = Ok [story_3; story_1].
Proof.
  intros Htop H1 H2 H3 H4 H5 L1 L2 L3 L4.
  unfold main_select, bind. rewrite print_eq.
  erewrite fetch_top_stories_json by apply Htop.
  cbn [py_slice_to slice_to Z.leb Z.compare Z.to_nat Pos.to_nat Pos.iter_op
         Nat.add firstn map app].
  rewrite print_eq. cbn [lift py_iter].
  change (firstn (Pos.to_nat 5) _)
    with [JInt 1; JInt 2; JInt 3; JInt 4; JInt 5].
  rewrite main_collect_cons. erewrite fetched_json by apply H1.
  erewrite link_story_keeps by exact L1.
  rewrite main_collect_cons. erewrite fetched_json by apply H2.
  erewrite text_story_keeps by exact L2.
  rewrite main_collect_cons. erewrite fetched_json by apply H3.
  erewrite link_story_keeps by exact L3.
  rewrite main_collect_cons. erewrite fetched_json by apply H4.
  erewrite link_story_keeps by exact L4.
  rewrite main_collect_cons, fetched_fails by apply H5.
  cbn [keeps truthy main_collect ret app]. rewrite print_eq.
  cbn [fst]. rewrite get_top_commented_stories_sort.
  - assert (C1 : comments story_1 = 10)
      by (unfold comments; now rewrite (link_story_count L1)).
    assert (C3 : comments story_3 = 30)
      by (unfold comments; now rewrite (link_story_count L3)).
    assert (C4 : comments story_4 = 5)
      by (unfold comments; now rewrite (link_story_count L4)).
    unfold lift. cbn [fst sort_by insert_by]. rewrite C3, C4.
    change (30 <? 5) with false. cbn [insert_by]. rewrite C1, C3.
    change (10 <? 30) with true. cbn [insert_by]. rewrite C4.
    reflexivity.
  - repeat constructor; unfold is_story;
      erewrite link_story_count by eassumption; discriminate.
Qed.

End ScriptFacts.

Lemma main_collect_keeps_stories_with_url_witness :
  @main_collect unit sample_world [JInt 1; JInt 2; JInt 3] [] start
  = (Ok [story_a; story_c],
     mkState tt
       [Requested (HN_ITEM (JInt 1)) 10; Requested (HN_ITEM (JInt 2)) 10;
        Requested (HN_ITEM (JInt 3)) 10])
  /\ Forall has_url [story_a; story_c].
Proof.
  split; [reflexivity|].
  apply (@main_collect_keeps_stories_with_url unit sample_world
           [JInt 1; JInt 2; JInt 3] start [story_a; story_c]
           (mkState tt
              [Requested (HN_ITEM (JInt 1)) 10;
               Requested (HN_ITEM (JInt 2)) 10;
               Requested (HN_ITEM (JInt 3)) 10])).
  reflexivity.
Defined.

(** C1 fails on the script: a story whose [url] is the empty string has no
    external URL, and yet it passes the loop of [main] and is ranked. *)
Lemma empty_url_is_kept :
  @main_collect unit sample_world [JInt 192327] [] start
  = (Ok [job_story], mkState tt [Requested (HN_ITEM (JInt 192327)) 10])
  /\ get_top_commented_stories [job_story] STORIES_TO_SEND = Ok [job_story]
  /\ Exists (fun story => nonempty_url story = false) [job_story].
Proof.
  split; [reflexivity|]. split; [reflexivity|].
  now constructor.
Qed.


Lemma null_story_is_skipped_witness :
  @fetch_story unit sample_world (JInt 7) start
  = (Ok JNull, mkState tt [Requested (HN_ITEM (JInt 7)) 10])
  /\ keeps JNull = Ok false
  /\ has_external_url JNull = Raise (no_attribute "get")
  /\ forall rest stories,
       @main_collect unit sample_world (JInt 7 :: rest) stories start
       = @main_collect unit sample_world rest stories
           (mkState tt [Requested (HN_ITEM (JInt 7)) 10]).
Proof.
  apply (@null_story_is_skipped unit sample_world (JInt 7) start).
  exists 200. split; reflexivity.
Defined.

(** C4, as stated, fails: with [ICLOUD_EMAIL] not set and
    [ICLOUD_APP_PASSWORD] set to the empty string, [main] names both as
    missing, and only the first is absent. *)
Lemma missing_names_are_not_the_absent_ones :
  absent_names blank_config = ["ICLOUD_EMAIL"]
  /\ reported_missing
       (trace (snd (@main unit sample_world blank_config start)))
     = ["ICLOUD_EMAIL"; "ICLOUD_APP_PASSWORD"]
  /\ reported_missing
       (trace (snd (@main unit sample_world blank_config start)))
     <> absent_names blank_config.
Proof. repeat split; try reflexivity. discriminate. Qed.

Lemma missing_configuration_stops_main_witness :
  exists lines,
    @main unit sample_world blank_config start
    = (Ok tt, mkState tt ([] ++ map Printed lines))
    /\ reported_missing (map Printed lines)
       = ["ICLOUD_EMAIL"; "ICLOUD_APP_PASSWORD"].
Proof.
  apply (@missing_configuration_stops_main unit sample_world
           blank_config start).
  discriminate.
Defined.

Lemma empty_variable_counts_as_missing_witness :
  @main unit sample_world blank_config start
  = @main unit sample_world
      (mkConfig None None (Some "me@instapaper.com")) start
  /\ exists lines,
       @main unit sample_world blank_config start
       = (Ok tt, mkState tt ([] ++ map Printed lines))
       /\ In "ICLOUD_APP_PASSWORD" (reported_missing (map Printed lines)).
Proof.
  apply (@empty_variable_counts_as_missing unit sample_world
           blank_config "ICLOUD_APP_PASSWORD" start).
  right. left. reflexivity.
Defined.

Lemma send_to_instapaper_email_witness :
  submitted
    (trace (snd (@send_to_instapaper unit sample_world sample_config
                   (JStr "http://a.example") (JStr "A") start)))
  = [email sample_config "http://a.example" "A"].
Proof.
  destruct (@send_to_instapaper_email unit sample_world sample_config
              "http://a.example" "A" start) as (sent & E & _ & _ & L).
  rewrite E, L; reflexivity.
Defined.

Lemma send_failure_does_not_stop_the_loop_witness :
  exists s_fail,
    @main_send unit locked_world sample_config 1
      ([] ++ story_a :: [story_c]) start
    = @main_send unit locked_world sample_config
        (1 + Z.of_nat (List.length (@nil pyval)) + 1) [story_c]
        (mkState (world s_fail)
           (trace s_fail ++ [Printed (failed_line refused)])).
Proof.
  eexists.
  eapply (@send_failure_does_not_stop_the_loop unit locked_world
            sample_config 1 [] _ (JStr "http://a.example") [story_c] refused
            start start);
    [reflexivity | reflexivity | vm_compute; reflexivity | reflexivity].
Defined.

Lemma example_scenario_selects_3_then_1_witness :
  fst (@main_select unit sample_world 5 2 start) = Ok [story_c; story_a].
Proof.
  apply (@example_scenario_selects_3_then_1 unit sample_world
           story_a story_b story_c story_d [JInt 6] start).
  1-5: intros w; exists 200; split; reflexivity.
  - intros w. reflexivity.
  - do 2 eexists. repeat split; solve [reflexivity | discriminate].
  - eexists. repeat split; reflexivity.
  - do 2 eexists. repeat split; solve [reflexivity | discriminate].
  - do 2 eexists. repeat split; solve [reflexivity | discriminate].
Defined.

Lemma main_send_completes_witness :
  exists s',
    @main_send unit locked_world sample_config 1 [story_a; story_c] start
    = (Ok tt, s').
Proof.
  apply (@main_send_completes unit locked_world sample_config 1
           [story_a; story_c] start).
  - intros [host port| |user password|msg|] w e; cbn; intros [= <-];
      reflexivity.
  - repeat constructor; do 2 eexists;
      (split; [reflexivity|split; [reflexivity|discriminate]]).
Defined.

Lemma main_select_has_url_witness : Forall has_url [story_c; story_a].
Proof.
  apply (@main_select_has_url unit sample_world 5 2 start
           (snd (@main_select unit sample_world 5 2 start))).
  vm_compute. reflexivity.
Defined.

(* ------------------------------------------------------------------ *)
(** ** More on the ranking *)

Lemma py_lt_null a b lt : py_lt a b = Ok lt -> a <> JNull /\ b <> JNull.
Proof.
  destruct a, b; cbn; intros E; try discriminate; split; discriminate.
Qed.

Lemma py_lt_raises (a : pyval) : forall b e, py_lt a b = Raise e -> e = unorderable.
Proof.
  revert a. fix IH 1. intros a b e.
  destruct a as [| | | |l|]; destruct b as [| | | |m|];
    try (cbn; try destruct b; try destruct b0; intros E;
         first [discriminate E | now injection E as <-]).
  cbn [py_lt]. revert m.
  induction l as [|x l IHl]; intros [|y m]; try discriminate.
  destruct (py_eq x y); [apply IHl | apply (IH x)].
Qed.

Lemma insert_desc_raises kx l e : insert_desc kx l = Raise e -> e = unorderable.
Proof.
  induction l as [|ky l IH]; cbn [insert_desc]; [discriminate|].
  destruct (py_lt (fst kx) (fst ky)) as [[|]|e'] eqn:E; cbn [result_bind].
  - destruct (insert_desc kx l); [discriminate|]. intros [= <-]. now apply IH.
  - discriminate.
  - intros [= <-]. now apply py_lt_raises in E.
Qed.

Lemma sort_desc_raises l e : sort_desc l = Raise e -> e = unorderable.
Proof.
  induction l as [|kx l IH]; cbn [sort_desc]; [discriminate|].
  destruct (sort_desc l) as [m|e']; cbn [result_bind].
  - apply insert_desc_raises.
  - intros [= <-]. now apply IH.
Qed.

(** A sort that returns has met no [None] among its keys, unless there was
    nothing to compare. *)
Lemma sort_desc_no_null l r :
  sort_desc l = Ok r -> (2 <= List.length l)%nat ->
  Forall (fun kx => fst kx <> JNull) l.
Proof.
  revert r. induction l as [|kx l IH]; intros r; cbn [sort_desc List.length];
    [lia|].
  destruct (sort_desc l) as [m|] eqn:S; [|discriminate]. cbn [result_bind].
  intros E Hl. pose proof (sort_desc_length _ S) as Hm.
  destruct m as [|ky m]; [cbn in Hm; lia|].
  cbn [insert_desc] in E.
  destruct (py_lt (fst kx) (fst ky)) as [lt|] eqn:L; [|discriminate].
  apply py_lt_null in L as [Hx Hy]. constructor; [exact Hx|].
  destruct l as [|kz [|kw l]].
  - cbn in Hl. lia.
  - cbn in S. injection S as <- <-. now repeat constructor.
  - apply (IH _ eq_refl). cbn. lia.
Qed.

Lemma keys_of_dicts stories :
  Forall is_dict stories ->
  exists keys,
    result_map (fun s => py_get s "descendants" (JInt 0)) stories = Ok keys
    /\ combine keys stories = map keyed stories.
Proof.
  induction 1 as [|s l [d ->] Hl (keys & E & C)]; [now exists []|].
  cbn [result_map map py_get result_bind]. rewrite E. cbn [result_bind].
  eexists. split; [reflexivity|]. cbn [combine]. now rewrite C.
Qed.

(** X3. With two stories or more, of which one has [descendants] set to [None],
    [get_top_commented_stories] raises the [TypeError] of the comparison:
    the default of [s.get("descendants", 0)] stands in for a missing key
    only. *)
Theorem null_descendants_break_the_ranking stories n :
  (2 <= List.length stories)%nat ->
  Forall is_dict stories ->
  Exists null_count stories ->
  get_top_commented_stories stories n = Raise unorderable.
Proof.
  intros Hl Hd Hn. unfold get_top_commented_stories, sorted_reverse.
  destruct (keys_of_dicts Hd) as (keys & E & C).
  rewrite E. cbn [result_bind]. rewrite C.
  destruct (sort_desc (map keyed stories)) as [r|e] eqn:S.
  - exfalso. apply sort_desc_no_null in S; [|now rewrite length_map].
    rewrite Forall_map in S. apply Exists_exists in Hn as (s & Hs & d & -> & Hk).
    rewrite Forall_forall in S. apply (S _ Hs).
    cbn. unfold dict_get. now rewrite Hk.
  - cbn [result_bind]. now rewrite (sort_desc_raises _ S).
Qed.

Lemma null_descendants_break_the_ranking_witness :
  get_top_commented_stories [story_a; story_null; story_c] 5
  = Raise unorderable.
Proof.
  apply (@null_descendants_break_the_ranking
           [story_a; story_null; story_c] 5).
  - cbn. lia.
  - repeat constructor; eexists; reflexivity.
  - right. left. eexists. split; reflexivity.
Defined.

(** X4. [get_top_commented_stories] neither drops a story nor repeats one on the
    way: what it returns, followed by what the slice cut off, is the input in
    another order; and nothing is cut off when [n] is at least the number of
    stories. *)
Theorem get_top_commented_stories_loses_nothing stories n out :
  get_top_commented_stories stories n = Ok out ->
  exists rest,
    Permutation stories (out ++ rest)
    /\ (Z.of_nat (List.length stories) <= n -> rest = []).
Proof.
  unfold get_top_commented_stories.
  destruct (sorted_reverse _ stories) as [l|] eqn:E; [|discriminate].
  intros [= <-]. pose proof (sorted_reverse_length _ _ E) as Hl.
  apply sorted_reverse_perm in E. unfold slice_to.
  destruct (0 <=? n) eqn:Hn.
  - exists (skipn (Z.to_nat n) l). rewrite firstn_skipn. split; [exact E|].
    intros Hb. apply skipn_all2. lia.
  - exists (skipn (Z.to_nat (Z.of_nat (List.length l) + n)) l).
    rewrite firstn_skipn. split; [exact E|].
    apply Z.leb_gt in Hn. lia.
Qed.

Lemma get_top_commented_stories_loses_nothing_witness :
  exists rest,
    Permutation [story_a; story_b; story_c] ([story_b; story_c] ++ rest)
    /\ (Z.of_nat (List.length [story_a; story_b; story_c]) <= 2 -> rest = []).
Proof.
  apply (@get_top_commented_stories_loses_nothing
           [story_a; story_b; story_c] 2 [story_b; story_c]).
  reflexivity.
Defined.



(* ------------------------------------------------------------------ *)
(** ** More on fetching *)

Section FetchFacts.

Context {W : Type} `{Net W}.

Lemma has_url_keeps story : has_url story -> keeps story = Ok true.
Proof.
  intros (d & u & -> & Hu & Hn). unfold keeps, has_external_url, py_get.
  destruct d as [|kv d]; [discriminate|]. cbn [truthy result_bind].
  unfold dict_get. rewrite Hu. now destruct u.
Qed.

(** X8. No story with a [url] is lost: when the item endpoint answers with a
    story whose [url] is there and is not [None], the loop of [main] appends
    that story to the ones it has and goes on. *)
Theorem story_with_url_is_kept story_id story rest stories (s : state W) :
  answers_json (answer (HN_ITEM story_id) s) story ->
  has_url story ->
  main_collect (story_id :: rest) stories s
  = main_collect rest (stories ++ [story]) (requested (HN_ITEM story_id) s).
Proof.
  intros Hj Hu. rewrite main_collect_cons, (fetched_json Hj).
  now rewrite (has_url_keeps Hu).
Qed.

(** X10. An answer that is neither false nor a dict (a number, a string, a list)
    stops the loop of [main]: [has_external_url] raises [AttributeError],
    nothing catches it, and the identifiers after it are not requested. *)
Theorem odd_story_stops_the_loop story_id v rest stories (s : state W) :
  answers_json (answer (HN_ITEM story_id) s) v ->
  truthy v = true ->
  ~ is_dict v ->
  main_collect (story_id :: rest) stories s
  = (Raise (no_attribute "get"), requested (HN_ITEM story_id) s).
Proof.
  intros Hj Ht Hd. rewrite main_collect_cons, (fetched_json Hj).
  unfold keeps. rewrite Ht.
  destruct v; try reflexivity. exfalso. apply Hd. now eexists.
Qed.

(** X11. [fetch_story] catches [RequestException] and nothing else: any other
    exception of the request or of [response.json()] leaves [fetch_story] and
    the loop of [main], and the identifiers after it are not requested. *)
Theorem other_exception_stops_the_loop story_id e rest stories (s : state W) :
  raises_uncaught (answer (HN_ITEM story_id) s) e ->
  fetch_story story_id s = (Raise e, requested (HN_ITEM story_id) s)
  /\ main_collect (story_id :: rest) stories s
     = (Raise e, requested (HN_ITEM story_id) s).
Proof.
  intros [Ho He].
  assert (Hf : fetched (answer (HN_ITEM story_id) s) = Raise e).
  { unfold fetched, raise_for_status.
    destruct Ho as [-> | (code & -> & Hc)]; cbn; rewrite ?Hc; cbn;
      now rewrite He. }
  now rewrite fetch_story_eq, main_collect_cons, Hf.
Qed.

Lemma fetch_top_stories_eq n (s : state W) :
  fetch_top_stories n s
  = (match answer HN_TOP_STORIES s with
     | GetRaises e => Raise e
     | GetReturns r =>
         result_bind (raise_for_status r) (fun _ =>
         result_bind (json r) (fun ids => py_slice_to ids n))
     end, requested HN_TOP_STORIES s).
Proof.
  unfold fetch_top_stories, bind, lift. rewrite get_eq.
  destruct (answer HN_TOP_STORIES s) as [e|r]; [reflexivity|].
  destruct (raise_for_status r) as [[]|e]; [|reflexivity]. cbn.
  now destruct (json r).
Qed.

(** X12. When [fetch_top_stories] raises, whatever the reason, [main] raises the
    same exception and has done nothing but print its first line and make
    that one request: no story is fetched and no mail is sent. *)
Theorem top_stories_failure_stops_main cfg e (s : state W) :
  missing_variables cfg = [] ->
  fst (fetch_top_stories STORIES_TO_FETCH
         (mkState (world s)
            (trace s ++ [Printed [Lit "Fetching top ";
                                  Fmt (JInt STORIES_TO_FETCH);
                                  Lit " stories from Hacker News..."]])))
  = Raise e ->
  fst (main cfg s) = Raise e
  /\ trace (snd (main cfg s))
     = trace s
       ++ [Printed [Lit "Fetching top "; Fmt (JInt STORIES_TO_FETCH);
                    Lit " stories from Hacker News..."];
           Requested HN_TOP_STORIES 10].
Proof.
  intros Hm Hf. rewrite fetch_top_stories_eq in Hf. cbn [fst] in Hf.
  assert (E : main cfg s
              = (Raise e,
                 requested HN_TOP_STORIES
                   (mkState (world s)
                      (trace s
                       ++ [Printed [Lit "Fetching top ";
                                    Fmt (JInt STORIES_TO_FETCH);
                                    Lit " stories from Hacker News..."]])))).
  { unfold main, main_with. rewrite Hm. cbn [map truthy].
    unfold main_select, bind. rewrite print_eq, fetch_top_stories_eq.
    cbn [world trace]. now rewrite Hf. }
  rewrite E. split; [reflexivity|].
  unfold requested. cbn [fst snd trace world]. now rewrite <- app_assoc.
Qed.

End FetchFacts.

Lemma story_with_url_is_kept_witness :
  @main_collect unit sample_world (JInt 3 :: [JInt 5]) [story_a] start
  = @main_collect unit sample_world [JInt 5] ([story_a] ++ [story_c])
      (@requested unit sample_world (HN_ITEM (JInt 3)) start).
Proof.
  apply (@story_with_url_is_kept unit sample_world (JInt 3) story_c
           [JInt 5] [story_a] start).
  - exists 200. split; reflexivity.
  - do 2 eexists. repeat split; solve [reflexivity | discriminate].
Defined.

Lemma odd_story_stops_the_loop_witness :
  @main_collect unit odd_world (JInt 1 :: [JInt 2; JInt 3]) [] start
  = (Raise (no_attribute "get"),
     @requested unit odd_world (HN_ITEM (JInt 1)) start).
Proof.
  apply (@odd_story_stops_the_loop unit odd_world (JInt 1) (JInt 5)
           [JInt 2; JInt 3] [] start).
  - exists 200. split; reflexivity.
  - reflexivity.
  - intros [d Hd]. discriminate Hd.
Defined.

Lemma other_exception_stops_the_loop_witness :
  @fetch_story unit odd_world (JInt 3) start
  = (Raise (mkExn ValueError "Expecting value"),
     @requested unit odd_world (HN_ITEM (JInt 3)) start)
  /\ @main_collect unit odd_world (JInt 3 :: [JInt 1]) [] start
     = (Raise (mkExn ValueError "Expecting value"),
        @requested unit odd_world (HN_ITEM (JInt 3)) start).
Proof.
  apply (@other_exception_stops_the_loop unit odd_world (JInt 3)
           (mkExn ValueError "Expecting value") [JInt 1] [] start).
  split; [|reflexivity]. right. exists 200. split; reflexivity.
Defined.

Lemma top_stories_failure_stops_main_witness :
  fst (@main unit down_world sample_config start)
  = Raise (mkExn Timeout "timed out")
  /\ trace (snd (@main unit down_world sample_config start))
     = trace start
       ++ [Printed [Lit "Fetching top "; Fmt (JInt STORIES_TO_FETCH);
                    Lit " stories from Hacker News..."];
           Requested HN_TOP_STORIES 10].
Proof.
  apply (@top_stories_failure_stops_main unit down_world sample_config
           (mkExn Timeout "timed out") start); reflexivity.
Defined.

(* ------------------------------------------------------------------ *)
(** ** More on sending *)

Section SendFacts.

Context {W : Type} `{Net W}.

(** The calls of one [send_to_instapaper], for any title. *)
Lemma session_trace cfg url title (s : state W) :
  exists k,
    (k <= 3)%nat
    /\ trace (snd (send_to_instapaper cfg (JStr url) title s))
       = trace s ++ map Smtp (session_calls cfg (composed cfg url title) k)
    /\ (k = O -> fst (smtp_call relay (world s)) <> None)
    /\ ((forall op w, before_submission op = true ->
                      fst (smtp_call op w) = None) -> k = 3%nat).
Proof.
  unfold send_to_instapaper, with_SMTP, bind, attempt, lift.
  cbn [MIMEText].
  change (set_header (set_header (set_header _ _ _) _ _) _ _)
    with (composed cfg url title).
  fold relay.
  repeat (rewrite smtp_eq;
          match goal with
          | |- context [fst (smtp_call ?op ?w)] =>
              let E := fresh "E" in destruct (fst (smtp_call op w)) eqn:E
          end; cbn [world trace fst snd]).
  all: rewrite <- ?app_assoc; cbn [app].
  all: first
    [ exists 0%nat; split; [lia|]; split; [reflexivity|];
      split; [congruence|]; intros Hall;
      rewrite Hall in * by reflexivity; discriminate
    | exists 1%nat; split; [lia|]; split; [reflexivity|];
      split; [discriminate|]; intros Hall;
      match goal with
      | E : fst (smtp_call _ _) = Some _ |- _ =>
          rewrite Hall in E by reflexivity; discriminate
      end
    | exists 2%nat; split; [lia|]; split; [reflexivity|];
      split; [discriminate|]; intros Hall;
      match goal with
      | E : fst (smtp_call _ _) = Some _ |- _ =>
          rewrite Hall in E by reflexivity; discriminate
      end
    | exists 3%nat; split; [lia|]; split; [reflexivity|];
      split; [discriminate|]; reflexivity ].
Qed.

(** X14. One [send_to_instapaper] talks to the relay in a fixed order and always
    hangs up: either opening the connection fails and nothing else is called,
    or the calls are the opening, then one, two or all three of STARTTLS, the
    login and the message, in that order, and then the exit of the [with]
    block as the last call. *)
Theorem smtp_session_is_closed cfg url title (s : state W) :
  exists ops,
    trace (snd (send_to_instapaper cfg (JStr url) title s))
    = trace s ++ map Smtp ops
    /\ ((ops = [relay] /\ fst (smtp_call relay (world s)) <> None)
        \/ exists k,
             (1 <= k <= 3)%nat
             /\ ops = relay
                      :: firstn k (session_body cfg (composed cfg url title))
                      ++ [SMTP_exit]).
Proof.
  destruct (session_trace cfg url title s) as (k & Hk & E & H0 & _).
  exists (session_calls cfg (composed cfg url title) k). split; [exact E|].
  destruct k as [|k]; [left; auto|].
  right. exists (S k). split; [lia|reflexivity].
Qed.

(** X15. A [url] that is not a string (a number, say) is never mailed: building
    the message raises before any connection is opened, [main] prints the
    failure, and the loop goes on with the next story. *)
Theorem url_that_is_no_string_is_not_sent cfg i d url rest (s : state W) :
  dict_lookup d "url" = Some url ->
  (forall u, url <> JStr u) ->
  main_send cfg i (JDict d :: rest) s
  = main_send cfg (i + 1) rest
      (mkState (world s)
         (trace s
          ++ announced i (dict_get d "title" (JStr "Untitled")) url
               (dict_get d "descendants" (JInt 0))
          ++ [Printed (failed_line (no_attribute "encode"))])).
Proof.
  intros Hu Hs. cbn [main_send]. unfold bind at 1.
  rewrite (main_send_one_eq _ _ _ _ Hu).
  unfold send_to_instapaper, bind at 1, lift at 1.
  destruct url as [| | |u| |];
    [| | |now destruct (Hs u)| |];
    cbn [MIMEText no_attribute is_Exception exn_class_of world trace];
    now rewrite <- app_assoc.
Qed.

(** X16. [except Exception] does not catch everything: an exception outside
    [Exception], such as the [KeyboardInterrupt] of the user, leaves the loop
    of [main], and the stories after it are not attempted. *)
Theorem interrupt_stops_the_loop cfg i d url e rest (s s_fail : state W) :
  dict_lookup d "url" = Some url ->
  send_to_instapaper cfg url (dict_get d "title" (JStr "Untitled"))
    (mkState (world s)
       (trace s
        ++ announced i (dict_get d "title" (JStr "Untitled")) url
             (dict_get d "descendants" (JInt 0))))
  = (Raise e, s_fail) ->
  is_Exception e = false ->
  main_send cfg i (JDict d :: rest) s = (Raise e, s_fail).
Proof.
  intros Hu Hs He. cbn [main_send]. unfold bind at 1.
  now rewrite (main_send_one_eq _ _ _ _ Hu), Hs, He.
Qed.

(** X17. A story without a [title] is mailed under the subject [Untitled]. *)
Theorem untitled_story_is_sent_as_untitled cfg i d url (s : state W) :
  dict_lookup d "title" = None ->
  dict_lookup d "url" = Some (JStr url) ->
  (forall op w, before_submission op = true -> fst (smtp_call op w) = None) ->
  submitted (trace (snd (main_send_one cfg i (JDict d) s)))
  = submitted (trace s) ++ [email cfg url "Untitled"].
Proof.
  intros Ht Hu Hall. rewrite (main_send_one_eq _ _ _ _ Hu).
  unfold dict_get at 1 2. rewrite Ht.
  match goal with
  | |- context [send_to_instapaper cfg (JStr url) ?t ?s0] =>
      destruct (session_trace cfg url t s0) as (k & _ & E & _ & H3);
      destruct (send_to_instapaper cfg (JStr url) t s0) as [[[]|e] s1]
  end.
  all: rewrite (H3 Hall) in E; cbn [snd world trace] in E.
  all: try destruct (is_Exception e); cbn [snd trace];
    rewrite ?submitted_app, E, !submitted_app;
    change (submitted (announced _ _ _ _)) with (@nil message);
    change (submitted (map Smtp (session_calls _ _ 3)))
      with [email cfg url "Untitled"];
    change (submitted [Printed _]) with (@nil message);
    now rewrite ?app_nil_r.
Qed.

End SendFacts.

Lemma url_that_is_no_string_is_not_sent_witness :
  @main_send unit sample_world sample_config 1
    (JDict story_num_fields :: [story_a]) start
  = @main_send unit sample_world sample_config (1 + 1) [story_a]
      (mkState (world start)
         (trace start
          ++ announced 1 (dict_get story_num_fields "title" (JStr "Untitled"))
               (JInt 5) (dict_get story_num_fields "descendants" (JInt 0))
          ++ [Printed (failed_line (no_attribute "encode"))])).
Proof.
  apply (@url_that_is_no_string_is_not_sent unit sample_world sample_config
           1 story_num_fields (JInt 5) [story_a] start).
  - reflexivity.
  - discriminate.
Defined.

Lemma interrupt_stops_the_loop_witness :
  @main_send unit interrupted_world sample_config 1
    (JDict story_a_fields :: [story_c]) start
  = (Raise interrupt,
     mkState tt
       (announced 1 (JStr "A") (JStr "http://a.example") (JInt 10)
        ++ [Smtp relay])).
Proof.
  apply (@interrupt_stops_the_loop unit interrupted_world sample_config
           1 story_a_fields (JStr "http://a.example") interrupt [story_c]
           start).
  - reflexivity.
  - vm_compute. reflexivity.
  - reflexivity.
Defined.

Lemma untitled_story_is_sent_as_untitled_witness :
  submitted
    (trace (snd (@main_send_one unit sample_world sample_config 1
                   (JDict story_untitled_fields) start)))
  = submitted (trace start)
    ++ [email sample_config "http://u.example" "Untitled"].
Proof.
  apply (@untitled_story_is_sent_as_untitled unit sample_world sample_config
           1 story_untitled_fields "http://u.example" start).
  - reflexivity.
  - reflexivity.
  - intros op w _. reflexivity.
Defined.

(* ------------------------------------------------------------------ *)
(** ** The run as a whole *)

Section RunFacts.

Context {W : Type} `{Net W}.

Lemma adds_ret {A} P (a : A) : adds_only (W := W) P (ret a).
Proof. intros s. exists []. now rewrite app_nil_r. Qed.

Lemma adds_raise {A} P e : adds_only (W := W) (A := A) P (raise e).
Proof. intros s. exists []. now rewrite app_nil_r. Qed.

Lemma adds_lift {A} P (r : result A) : adds_only (W := W) P (lift r).
Proof. intros s. exists []. now rewrite app_nil_r. Qed.

Lemma adds_print (P : event -> Prop) l :
  P (Printed l) -> adds_only (W := W) P (print l).
Proof. intros Hp s. exists [Printed l]. now repeat constructor. Qed.

Lemma adds_bind {A B} P (m : M W A) (k : A -> M W B) :
  adds_only P m -> (forall a, adds_only P (k a)) -> adds_only P (bind m k).
Proof.
  intros Hm Hk s. unfold bind. destruct (Hm s) as (t & E & Ht).
  destruct (m s) as [[a|e] s1]; cbn [snd] in *.
  - destruct (Hk a s1) as (t' & E' & Ht'). exists (t ++ t').
    rewrite E', E, app_assoc. split; [reflexivity|]. now apply Forall_app.
  - now exists t.
Qed.

Lemma adds_attempt {A} P (m : M W A) :
  adds_only P m -> adds_only P (attempt m).
Proof.
  intros Hm s. unfold attempt. destruct (Hm s) as (t & E & Ht).
  destruct (m s) as [r s1]. now exists t.
Qed.

Lemma adds_get (P : event -> Prop) u :
  P (Requested u 10) -> adds_only P (get u 10).
Proof. intros Hp s. rewrite get_eq. exists [Requested u 10]. now repeat constructor. Qed.

Lemma adds_smtp (P : event -> Prop) op : P (Smtp op) -> adds_only P (smtp op).
Proof. intros Hp s. rewrite smtp_eq. exists [Smtp op]. now repeat constructor. Qed.

Lemma fetch_story_adds story_id : adds_only not_smtp (fetch_story story_id).
Proof.
  intros s. rewrite fetch_story_eq. exists [Requested (HN_ITEM story_id) 10].
  now repeat constructor.
Qed.

Lemma main_collect_adds story_ids stories :
  adds_only not_smtp (main_collect story_ids stories).
Proof.
  revert stories. induction story_ids as [|story_id rest IH]; intros stories.
  - apply adds_ret.
  - cbn [main_collect]. apply adds_bind; [apply fetch_story_adds|].
    intros story. apply adds_bind; [apply adds_lift|]. intros keep. apply IH.
Qed.

Lemma main_select_adds to_fetch to_send :
  adds_only not_smtp (main_select to_fetch to_send).
Proof.
  unfold main_select, fetch_top_stories.
  repeat first
    [ apply adds_print; reflexivity
    | apply adds_get; reflexivity
    | apply adds_lift
    | apply main_collect_adds
    | apply adds_bind; [|intros ?] ].
Qed.

Lemma send_to_instapaper_adds cfg url title :
  adds_only not_request (send_to_instapaper cfg url title).
Proof.
  unfold send_to_instapaper, with_SMTP.
  repeat first
    [ apply adds_smtp; reflexivity
    | apply adds_lift
    | apply adds_attempt
    | apply adds_bind; [|intros ?] ].
Qed.

Lemma main_send_one_adds cfg i story :
  adds_only not_request (main_send_one cfg i story).
Proof.
  unfold main_send_one.
  repeat first
    [ apply adds_print; reflexivity
    | apply adds_lift
    | apply send_to_instapaper_adds
    | apply adds_attempt
    | apply adds_bind; [|intros ?] ].
  match goal with r : result unit |- _ => destruct r as [[]|e] end;
    [apply adds_print; reflexivity|].
  destruct (is_Exception e); [apply adds_print; reflexivity|apply adds_raise].
Qed.

Lemma main_send_adds cfg i top_stories :
  adds_only not_request (main_send cfg i top_stories).
Proof.
  revert i. induction top_stories as [|story rest IH]; intros i.
  - apply adds_ret.
  - cbn [main_send]. apply adds_bind; [apply main_send_one_adds|].
    intros _. apply IH.
Qed.

Lemma for_each_print_adds (P : event -> Prop) (f : string -> line) names :
  (forall var, P (Printed (f var))) ->
  adds_only (W := W) P (for_each names (fun var => print (f var))).
Proof.
  intros Hp s. rewrite for_each_print. eexists. split; [reflexivity|].
  apply Forall_map, Forall_forall. auto.
Qed.

Lemma two_phases {A B} P Q (m : M W A) (k : A -> M W B) (s : state W) :
  adds_only P m -> (forall a, adds_only Q (k a)) ->
  exists t1 t2,
    trace (snd (bind m k s)) = trace s ++ t1 ++ t2
    /\ Forall P t1 /\ Forall Q t2.
Proof.
  intros Hm Hk. unfold bind. destruct (Hm s) as (t1 & E & H1).
  destruct (m s) as [[a|e] s1]; cbn [snd] in *.
  - destruct (Hk a s1) as (t2 & E' & H2). exists t1, t2.
    now rewrite E', E, app_assoc.
  - exists t1, []. now rewrite app_nil_r.
Qed.

(** X18. [main] works in two phases: whatever happens, every request it makes
    comes before every call to the relay.  Nothing is mailed while stories
    are still being fetched, and nothing is fetched once mailing has begun. *)
Theorem requests_come_before_mail cfg to_fetch to_send (s : state W) :
  exists t1 t2,
    trace (snd (main_with cfg to_fetch to_send s)) = trace s ++ t1 ++ t2
    /\ Forall not_smtp t1 /\ Forall not_request t2.
Proof.
  unfold main_with. destruct (truthy _).
  - apply two_phases.
    + apply adds_print. reflexivity.
    + intros _. apply adds_bind; [|intros _; apply adds_print; reflexivity].
      apply for_each_print_adds. reflexivity.
  - apply two_phases; [apply main_select_adds|].
    intros top_stories.
    apply adds_bind; [apply adds_print; reflexivity|]. intros _.
    apply adds_bind; [apply main_send_adds|]. intros _.
    apply adds_print. reflexivity.
Qed.

Lemma submitted_skip t0 t : Forall not_smtp t -> submitted (t0 ++ t) = submitted t0.
Proof.
  intros Ht. rewrite submitted_app. rewrite <- (app_nil_r (submitted t0)) at 2.
  f_equal. induction Ht as [|ev t Hev _ IH]; [reflexivity|].
  cbn [submitted flat_map]. fold (submitted t). rewrite IH.
  now destruct ev.
Qed.

Lemma send_to_instapaper_at_most_one cfg url title (s : state W) :
  (List.length (submitted (trace (snd (send_to_instapaper cfg url title s))))
   <= List.length (submitted (trace s)) + 1)%nat.
Proof.
  destruct url as [| | |u| |];
    try (unfold send_to_instapaper, bind, lift; cbn; lia).
  destruct (session_trace cfg u title s) as (k & Hk & E & _).
  rewrite E, submitted_app, length_app.
  apply Nat.add_le_mono_l.
  destruct k as [|[|[|[|k]]]]; cbn; lia.
Qed.

Lemma main_send_one_at_most_one cfg i story (s : state W) :
  (List.length (submitted (trace (snd (main_send_one cfg i story s))))
   <= List.length (submitted (trace s)) + 1)%nat.
Proof.
  destruct story as [| | | | |d];
    try (unfold main_send_one, bind, lift; cbn; lia).
  destruct (dict_lookup d "url") as [url|] eqn:Hu.
  - rewrite (main_send_one_eq _ _ _ _ Hu).
    match goal with
    | |- context [send_to_instapaper cfg url ?t ?s0] =>
        pose proof (send_to_instapaper_at_most_one cfg url t s0) as Hs;
        destruct (send_to_instapaper cfg url t s0) as [[[]|e] s1]
    end; cbn [snd trace] in Hs; rewrite submitted_app in Hs;
      change (submitted (announced _ _ _ _)) with (@nil message) in Hs;
      rewrite app_nil_r in Hs;
      try destruct (is_Exception e); cbn [snd trace];
      rewrite ?submitted_app; cbn [submitted flat_map app];
      rewrite ?app_nil_r; exact Hs.
  - unfold main_send_one, bind, lift, py_get, py_getitem. rewrite Hu. cbn. lia.
Qed.

Lemma main_send_at_most cfg i top_stories (s : state W) :
  (List.length (submitted (trace (snd (main_send cfg i top_stories s))))
   <= List.length (submitted (trace s)) + List.length top_stories)%nat.
Proof.
  revert i s. induction top_stories as [|story rest IH]; intros i s.
  - cbn. lia.
  - cbn [main_send List.length]. unfold bind.
    pose proof (main_send_one_at_most_one cfg i story s) as H1.
    destruct (main_send_one cfg i story s) as [[[]|e] s1]; cbn [snd] in *.
    + specialize (IH (i + 1) s1). lia.
    + lia.
Qed.

Lemma main_select_length to_fetch to_send (s s' : state W) top_stories :
  0 <= to_send ->
  main_select to_fetch to_send s = (Ok top_stories, s') ->
  (List.length top_stories <= Z.to_nat to_send)%nat.
Proof.
  intros Hn. unfold main_select, bind. rewrite print_eq.
  destruct (fetch_top_stories to_fetch _) as [[story_ids|e] s1];
    [|discriminate].
  rewrite print_eq. unfold lift at 1.
  destruct (py_iter story_ids) as [ids|e]; [|discriminate].
  destruct (main_collect ids [] _) as [[stories|e] s2]; [|discriminate].
  rewrite print_eq. unfold lift. intros [= Hg _].
  apply get_top_commented_stories_length_any in Hg; lia.
Qed.

(** X19. [main] hands at most [STORIES_TO_SEND] messages to the relay, whatever
    the network answers: for a send bound that is at least 0, the messages
    submitted in one run number at most that bound. *)
Theorem main_sends_at_most cfg to_fetch to_send (s : state W) :
  0 <= to_send ->
  (List.length (submitted (trace (snd (main_with cfg to_fetch to_send s))))
   <= List.length (submitted (trace s)) + Z.to_nat to_send)%nat.
Proof.
  intros Hn. unfold main_with. destruct (truthy _).
  - match goal with
    | |- context [snd (?m s)] =>
        assert (Ha : adds_only not_smtp m)
    end.
    { apply adds_bind; [apply adds_print; reflexivity|]. intros _.
      apply adds_bind; [|intros _; apply adds_print; reflexivity].
      apply for_each_print_adds. reflexivity. }
    destruct (Ha s) as (t & -> & Ht). rewrite (submitted_skip _ Ht). lia.
  - unfold bind at 1.
    destruct (main_select_adds to_fetch to_send s) as (t & E & Ht).
    destruct (main_select to_fetch to_send s) as [[top_stories|e] s1] eqn:Es;
      cbn [snd] in *.
    + apply main_select_length in Es; [|exact Hn].
      unfold bind. rewrite print_eq.
      match goal with
      | |- context [main_send cfg 1 top_stories ?s2] =>
          pose proof (main_send_at_most cfg 1 top_stories s2) as Hs;
          destruct (main_send cfg 1 top_stories s2) as [[[]|e] s3]
      end; cbn [snd trace] in *; rewrite ?print_eq; cbn [snd trace];
        rewrite ?submitted_app in *; cbn [submitted flat_map app] in *;
        rewrite ?app_nil_r in *; rewrite E, (submitted_skip _ Ht) in Hs; lia.
    + rewrite E, (submitted_skip _ Ht). lia.
Qed.

Lemma main_collect_requests story_ids stories (s : state W) :
  exists k,
    (k <= List.length story_ids)%nat
    /\ trace (snd (main_collect story_ids stories s))
       = trace s ++ map item_request (firstn k story_ids).
Proof.
  revert stories s. induction story_ids as [|story_id rest IH]; intros stories s.
  - exists 0%nat. cbn. now rewrite app_nil_r.
  - rewrite main_collect_cons.
    destruct (fetched _) as [story|e];
      [destruct (keeps story) as [keep|e]|].
    + destruct (IH (if keep then stories ++ [story] else stories)
                   (requested (HN_ITEM story_id) s)) as (k & Hk & E).
      exists (S k). split; [cbn; lia|]. rewrite E. unfold requested.
      cbn [trace firstn map]. now rewrite <- app_assoc.
    + exists 1%nat. split; [cbn; lia|]. reflexivity.
    + exists 1%nat. split; [cbn; lia|]. reflexivity.
Qed.

Lemma slice_to_bound {A} (l : list A) n :
  0 <= n -> (List.length (slice_to l n) <= Z.to_nat n)%nat.
Proof.
  intros Hn. unfold slice_to. destruct (0 <=? n) eqn:E.
  - rewrite length_firstn. lia.
  - apply Z.leb_gt in E. lia.
Qed.

Lemma sliced_ids_bound v n sliced ids :
  0 <= n ->
  py_slice_to v n = Ok sliced -> py_iter sliced = Ok ids ->
  (List.length ids <= Z.to_nat n)%nat.
Proof.
  intros Hn. destruct v; cbn; try discriminate; intros [= <-]; cbn;
    intros [= <-].
  - rewrite list_ascii_of_string_of_list_ascii, length_map.
    now apply slice_to_bound.
  - now apply slice_to_bound.
Qed.

Lemma network_of_requests ids :
  filter is_network (map item_request ids) = map item_request ids.
Proof. induction ids as [|story_id ids IH]; cbn; now rewrite ?IH. Qed.

(** X13. The requests of one run are bounded: for a fetch bound that is at least
    0, what [main] does on the network up to the ranking is one request to
    the ranking endpoint followed by requests to the item endpoint, at most
    as many as the bound says, each with the timeout of 10 seconds; there is
    no second request to the ranking endpoint and no call to the relay. *)
Theorem main_select_requests to_fetch to_send (s : state W) :
  0 <= to_fetch ->
  exists ids,
    filter is_network (trace (snd (main_select to_fetch to_send s)))
    = filter is_network (trace s)
      ++ Requested HN_TOP_STORIES 10 :: map item_request ids
    /\ (List.length ids <= Z.to_nat to_fetch)%nat.
Proof.
  intros Hn. unfold main_select, bind.
  rewrite print_eq, fetch_top_stories_eq.
  destruct (answer HN_TOP_STORIES _) as [e|r] eqn:Ea;
    [|destruct (raise_for_status r) as [[]|e];
      [cbn [result_bind]; destruct (json r) as [v|e];
       [cbn [result_bind];
        destruct (py_slice_to v to_fetch) as [sliced|e] eqn:Es|]|]];
    cbn [result_bind].
  2: { rewrite print_eq. unfold lift at 1.
       destruct (py_iter sliced) as [ids|e] eqn:Ei.
       - match goal with
         | |- context [main_collect ids [] ?s2] =>
             destruct (main_collect_requests ids [] s2) as (k & Hk & E);
             destruct (main_collect ids [] s2) as [[stories|e] s3]
         end; cbn [snd] in E; exists (firstn k ids);
           (split;
            [|rewrite length_firstn;
              pose proof (sliced_ids_bound _ Hn Es Ei); lia]);
           rewrite ?print_eq; unfold lift; cbn [snd trace]; rewrite E;
           unfold requested; cbn [trace];
           rewrite !filter_app, network_of_requests; cbn [filter is_network];
           now rewrite ?app_nil_r, <- ?app_assoc.
       - exists []. split; [|cbn; lia]. unfold requested. cbn [snd trace].
         rewrite !filter_app. cbn [filter is_network map].
         now rewrite ?app_nil_r, <- ?app_assoc. }
  all: exists []; (split; [|cbn; lia]); unfold requested; cbn [snd trace];
    rewrite !filter_app; cbn [filter is_network map];
    now rewrite ?app_nil_r.
Qed.

Lemma item_ok_keeps v :
  item_ok v ->
  exists keep,
    keeps v = Ok keep /\ (keep = true -> has_url v /\ is_story v).
Proof.
  intros [Hf | [[d ->] Hs]].
  - exists false. unfold keeps. rewrite Hf. now split.
  - destruct (keeps (JDict d)) as [keep|e] eqn:K.
    + exists keep. split; [reflexivity|]. intros ->.
      split; [now apply keeps_has_url | exact Hs].
    + unfold keeps, has_external_url in K. cbn in K.
      now destruct d.
Qed.

Lemma main_collect_healthy story_ids stories (s : state W) :
  healthy ->
  Forall (fun story => has_url story /\ is_story story) stories ->
  exists out s',
    main_collect story_ids stories s = (Ok out, s')
    /\ Forall (fun story => has_url story /\ is_story story) out.
Proof.
  intros (_ & Hi & _). revert stories s.
  induction story_ids as [|story_id rest IH]; intros stories s Hs.
  - now exists stories, s.
  - rewrite main_collect_cons. unfold answer.
    destruct (Hi story_id (world s)) as [Hf | (v & Hj & Hv)].
    + rewrite (fetched_fails _ Hf). cbn [keeps truthy]. now apply IH.
    + rewrite (fetched_json Hj).
      destruct (item_ok_keeps Hv) as (keep & -> & Hk).
      apply IH. destruct keep; [|exact Hs].
      apply Forall_app. split; [exact Hs|]. constructor; auto.
Qed.

Lemma main_select_healthy to_fetch to_send (s : state W) :
  healthy ->
  exists top_stories s',
    main_select to_fetch to_send s = (Ok top_stories, s')
    /\ Forall has_url top_stories.
Proof.
  intros Hh. pose proof Hh as (Ht & _ & _).
  unfold main_select, bind. rewrite print_eq.
  match goal with
  | |- context [fetch_top_stories to_fetch ?s1] =>
      destruct (Ht (world s1)) as (l & Hl);
      erewrite (@fetch_top_stories_json _ _ to_fetch (JList l) s1)
        by exact Hl
  end.
  cbn [py_slice_to]. rewrite print_eq. cbn [lift py_iter].
  match goal with
  | |- context [main_collect ?ids [] ?s2] =>
      destruct (main_collect_healthy ids (stories := []) s2 Hh)
        as (out & s3 & -> & Ho); [constructor|]
  end.
  rewrite print_eq.
  assert (Hs : Forall is_story out)
    by (eapply Forall_impl; [|exact Ho]; now intros story [_ Hs]).
  pose proof (get_top_commented_stories_sort to_send Hs) as Hg.
  rewrite Hg. do 2 eexists. split; [reflexivity|].
  apply get_top_commented_stories_incl in Hg.
  rewrite Forall_forall in *. intros story Hin. now apply Ho, Hg.
Qed.

Lemma main_send_returns cfg i top_stories (s : state W) :
  (forall op w e, fst (smtp_call op w) = Some e -> is_Exception e = true) ->
  Forall has_url top_stories ->
  exists s', main_send cfg i top_stories s = (Ok tt, s').
Proof.
  intros Hw Ht. revert i s.
  induction Ht as [|story rest (d & u & -> & Hu & _) _ IH]; intros i s.
  - now exists s.
  - cbn [main_send]. unfold bind. rewrite (main_send_one_eq _ _ _ _ Hu).
    destruct (send_to_instapaper _ _ _ _) as [[[]|e] s1] eqn:E.
    + apply IH.
    + rewrite (send_to_instapaper_raises _ _ _ _ Hw E). apply IH.
Qed.

(** X20. With the three variables set and a world that behaves, [main] never
    raises: it returns, and the last thing it does is to print [Done!],
    however many fetches and sends failed on the way. *)
Theorem main_runs_to_the_end cfg (s : state W) :
  missing_variables cfg = [] ->
  healthy ->
  exists s' t,
    main cfg s = (Ok tt, s') /\ trace s' = t ++ [Printed [Lit "Done!"]].
Proof.
  intros Hm Hh. unfold main, main_with. rewrite Hm. cbn [map truthy].
  unfold bind at 1.
  destruct (main_select_healthy STORIES_TO_FETCH STORIES_TO_SEND s Hh)
    as (top_stories & s1 & -> & Ht).
  unfold bind. rewrite print_eq.
  destruct Hh as (_ & _ & Hw).
  match goal with
  | |- context [main_send cfg 1 top_stories ?s2] =>
      destruct (main_send_returns cfg 1 s2 Hw Ht) as (s3 & ->)
  end.
  rewrite print_eq. now do 2 eexists.
Qed.

End RunFacts.

Lemma main_sends_at_most_witness :
  (List.length
     (submitted
        (trace (snd (@main_with unit sample_world sample_config 5 2 start))))
   <= List.length (submitted (trace start)) + Z.to_nat 2)%nat.
Proof.
  apply (@main_sends_at_most unit sample_world sample_config 5 2 start). lia.
Defined.

Lemma main_select_requests_witness :
  exists ids,
    filter is_network
      (trace (snd (@main_select unit sample_world 5 2 start)))
    = filter is_network (trace start)
      ++ Requested HN_TOP_STORIES 10 :: map item_request ids
    /\ (List.length ids <= Z.to_nat 5)%nat.
Proof.
  apply (@main_select_requests unit sample_world 5 2 start). lia.
Defined.

Lemma main_runs_to_the_end_witness :
  exists s' t,
    @main unit tidy_world sample_config start = (Ok tt, s')
    /\ trace s' = t ++ [Printed [Lit "Done!"]].
Proof.
  apply (@main_runs_to_the_end unit tidy_world sample_config start).
  - reflexivity.
  - split; [|split].
    + intros w. eexists. exists 200. split; reflexivity.
    + intros story_id w.
      destruct story_id as [| |z| | |]; try (left; reflexivity).
      cbn. destruct (z =? 1); [|destruct (z =? 2); [|destruct (z =? 3)]];
        try (left; reflexivity);
        right; eexists; (split; [exists 200; split; reflexivity|]);
        right; (split; [eexists; reflexivity | discriminate]).
    + intros op w e. destruct op; cbn; intros [= <-]; reflexivity.
Defined.

(* ------------------------------------------------------------------ *)
(** ** The ranking picks the top *)

Lemma sort_by_sorted_id {A} (w : A -> Z) l :
  StronglySorted (heavier w) l -> sort_by w l = l.
Proof.
  induction 1 as [|x l Hl IH Hx]; [reflexivity|].
  cbn [sort_by]. rewrite IH. destruct l as [|y l]; [reflexivity|].
  cbn [insert_by]. apply Forall_inv in Hx. unfold heavier in Hx.
  destruct (w x <? w y) eqn:E; [apply Z.ltb_lt in E; lia | reflexivity].
Qed.

Lemma sorted_app_heavier {A} (R : A -> A -> Prop) l1 l2 :
  StronglySorted R (l1 ++ l2) ->
  forall a b, In a l1 -> In b l2 -> R a b.
Proof.
  induction l1 as [|x l1 IH]; cbn; [contradiction|].
  intros Hs a b [<- | Ha] Hb.
  - apply StronglySorted_inv in Hs as [_ Hx].
    rewrite Forall_forall in Hx. apply Hx, in_or_app. now right.
  - apply StronglySorted_inv in Hs as [Hs _]. now apply IH.
Qed.

(** X6. What [get_top_commented_stories] returns is the top of its input: the
    stories it leaves out are the rest of the input, and none of them has
    more comments than a story it returns. *)
Theorem get_top_commented_stories_is_the_top stories n :
  Forall is_story stories ->
  exists out rest,
    get_top_commented_stories stories n = Ok out
    /\ Permutation stories (out ++ rest)
    /\ forall a b, In a out -> In b rest -> comments b <= comments a.
Proof.
  intros Hs. rewrite (get_top_commented_stories_sort n Hs).
  destruct (slice_to_firstn (sort_by comments stories) n) as [k Hk].
  exists (slice_to (sort_by comments stories) n),
         (skipn k (sort_by comments stories)).
  split; [reflexivity|]. rewrite Hk, firstn_skipn. split.
  - apply sort_by_perm.
  - apply (sorted_app_heavier (R := heavier comments)).
    rewrite firstn_skipn. apply sort_by_sorted.
Qed.

Lemma get_top_commented_stories_is_the_top_witness :
  exists out rest,
    get_top_commented_stories [story_a; story_b; story_c; story_d] 2 = Ok out
    /\ Permutation [story_a; story_b; story_c; story_d] (out ++ rest)
    /\ forall a b, In a out -> In b rest -> comments b <= comments a.
Proof.
  apply (@get_top_commented_stories_is_the_top
           [story_a; story_b; story_c; story_d] 2).
  repeat constructor; discriminate.
Defined.

(** X7. Ranking what is ranked already changes nothing: for a bound that is at
    least 0, [get_top_commented_stories] applied to its own result returns
    that result. *)
Theorem get_top_commented_stories_twice stories n out :
  0 <= n ->
  Forall is_story stories ->
  get_top_commented_stories stories n = Ok out ->
  get_top_commented_stories out n = Ok out.
Proof.
  intros Hn Hs. rewrite (get_top_commented_stories_sort n Hs).
  intros [= <-]. unfold slice_to. destruct (0 <=? n) eqn:E;
    [|apply Z.leb_gt in E; lia].
  set (l := firstn (Z.to_nat n) (sort_by comments stories)).
  assert (Hl : Forall is_story l).
  { apply Forall_forall. intros story Hin.
    rewrite Forall_forall in Hs. apply Hs.
    apply (Permutation_in _ (Permutation_sym (sort_by_perm comments stories))).
    rewrite <- (firstn_skipn (Z.to_nat n) (sort_by comments stories)).
    apply in_or_app. now left. }
  rewrite (get_top_commented_stories_sort n Hl). unfold slice_to. rewrite E.
  rewrite sort_by_sorted_id by apply firstn_sorted, sort_by_sorted.
  f_equal. apply firstn_all2. subst l. rewrite length_firstn. lia.
Qed.

Lemma get_top_commented_stories_twice_witness :
  get_top_commented_stories [story_b; story_c] 2 = Ok [story_b; story_c].
Proof.
  apply (@get_top_commented_stories_twice
           [story_a; story_b; story_c; story_d] 2 [story_b; story_c]).
  - lia.
  - repeat constructor; discriminate.
  - reflexivity.
Defined.

(* ------------------------------------------------------------------ *)
(** ** What the loops pass over, and what they open *)

Section LoopFacts.

Context {W : Type} `{Net W}.

(** X9. An answer with no link is passed over without a sound: when the item
    endpoint answers with something false (an empty object, say) or with a
    dict whose [url] is missing or is [None], the loop of [main] keeps the
    stories it has and goes on to the next identifier. *)
Theorem story_without_url_is_passed_over
    story_id v rest stories (s : state W) :
  answers_json (answer (HN_ITEM story_id) s) v ->
  no_url v ->
  main_collect (story_id :: rest) stories s
  = main_collect rest stories (requested (HN_ITEM story_id) s).
Proof.
  intros Hj Hn. rewrite main_collect_cons, (fetched_json Hj).
  assert (Hk : keeps v = Ok false).
  { unfold keeps. destruct Hn as [-> | (d & -> & Hu)]; [reflexivity|].
    destruct d as [|kv d]; [reflexivity|].
    cbn [truthy has_external_url py_get result_bind]. unfold dict_get.
    now destruct Hu as [-> | ->]. }
  now rewrite Hk.
Qed.

Lemma opened_app t1 t2 : opened (t1 ++ t2) = (opened t1 + opened t2)%nat.
Proof. unfold opened. now rewrite filter_app, length_app. Qed.

Lemma closed_app t1 t2 : closed (t1 ++ t2) = (closed t1 + closed t2)%nat.
Proof. unfold closed. now rewrite filter_app, length_app. Qed.

Lemma session_counts cfg url title (s : state W) :
  opened (trace (snd (send_to_instapaper cfg (JStr url) title s)))
  = (opened (trace s) + 1)%nat
  /\ (closed (trace (snd (send_to_instapaper cfg (JStr url) title s)))
      <= closed (trace s) + 1)%nat
  /\ ((forall w, fst (smtp_call relay w) = None) ->
      closed (trace (snd (send_to_instapaper cfg (JStr url) title s)))
      = (closed (trace s) + 1)%nat).
Proof.
  destruct (session_trace cfg url title s) as (k & Hk & E & H0 & _).
  rewrite E, opened_app, closed_app.
  destruct k as [|[|[|[|k]]]]; try lia;
    (split; [reflexivity|]); (split; [cbn; lia|]); intros Hr;
    try reflexivity.
  now destruct (H0 eq_refl).
Qed.

Lemma main_send_one_counts cfg i d url (s : state W) :
  dict_lookup d "url" = Some (JStr url) ->
  opened (trace (snd (main_send_one cfg i (JDict d) s)))
  = (opened (trace s) + 1)%nat
  /\ (closed (trace (snd (main_send_one cfg i (JDict d) s)))
      <= closed (trace s) + 1)%nat
  /\ ((forall w, fst (smtp_call relay w) = None) ->
      closed (trace (snd (main_send_one cfg i (JDict d) s)))
      = (closed (trace s) + 1)%nat).
Proof.
  intros Hu. rewrite (main_send_one_eq _ _ _ _ Hu).
  match goal with
  | |- context [send_to_instapaper cfg (JStr url) ?t ?s0] =>
      pose proof (session_counts cfg url t s0) as Hs;
      destruct (send_to_instapaper cfg (JStr url) t s0) as [[[]|e] s1]
  end; cbn [snd trace] in Hs; rewrite opened_app, closed_app in Hs;
    change (opened (announced _ _ _ _)) with 0%nat in Hs;
    change (closed (announced _ _ _ _)) with 0%nat in Hs;
    try destruct (is_Exception e); cbn [snd trace];
    rewrite ?opened_app, ?closed_app;
    change (opened [Printed _]) with 0%nat;
    change (closed [Printed _]) with 0%nat;
    destruct Hs as (Ho & Hc & Hr);
    (split; [lia|]); (split; [lia|]); intros Hw; specialize (Hr Hw); lia.
Qed.

(** X21. One connection for each story, never shared and always left: with a
    relay whose failures are exceptions, the loop over the selected stories
    opens exactly as many connections as there are stories, leaves no more
    than it opened, and leaves every one of them when the relay accepts the
    connections. *)
Theorem one_connection_per_story cfg i top_stories (s : state W) :
  (forall op w e, fst (smtp_call op w) = Some e -> is_Exception e = true) ->
  Forall str_url top_stories ->
  opened (trace (snd (main_send cfg i top_stories s)))
  = (opened (trace s) + List.length top_stories)%nat
  /\ (closed (trace (snd (main_send cfg i top_stories s)))
      <= closed (trace s) + List.length top_stories)%nat
  /\ ((forall w, fst (smtp_call relay w) = None) ->
      closed (trace (snd (main_send cfg i top_stories s)))
      = (closed (trace s) + List.length top_stories)%nat).
Proof.
  intros Hw Ht. revert i s.
  induction Ht as [|story rest (d & u & -> & Hu) _ IH]; intros i s.
  - cbn. repeat split; intros; lia.
  - cbn [main_send List.length]. unfold bind.
    pose proof (main_send_one_counts cfg i d s Hu) as (Ho & Hc & Hr).
    assert (Hok : fst (main_send_one cfg i (JDict d) s) = Ok tt).
    { rewrite (main_send_one_eq _ _ _ _ Hu).
      destruct (send_to_instapaper _ _ _ _) as [[[]|e] s1] eqn:E;
        [reflexivity|].
      now rewrite (send_to_instapaper_raises _ _ _ _ Hw E). }
    destruct (main_send_one cfg i (JDict d) s) as [r s1].
    cbn [fst snd] in *. subst r.
    destruct (IH (i + 1) s1) as (Ho' & Hc' & Hr').
    split; [lia|]. split; [lia|]. intros Hall.
    specialize (Hr Hall). specialize (Hr' Hall). lia.
Qed.

End LoopFacts.

Lemma story_without_url_is_passed_over_witness :
  @main_collect unit null_url_world (JInt 11 :: [JInt 12]) [story_a] start
  = @main_collect unit null_url_world [JInt 12] [story_a]
      (@requested unit null_url_world (HN_ITEM (JInt 11)) start).
Proof.
  apply (@story_without_url_is_passed_over unit null_url_world (JInt 11)
           story_null_url [JInt 12] [story_a] start).
  - exists 200. split; reflexivity.
  - right. eexists. split; [reflexivity|]. now right.
Defined.

Lemma one_connection_per_story_witness :
  opened (trace (snd (@main_send unit locked_world sample_config 1
                        [story_a; story_c] start)))
  = (opened (trace start) + 2)%nat
  /\ (closed (trace (snd (@main_send unit locked_world sample_config 1
                            [story_a; story_c] start)))
      <= closed (trace start) + 2)%nat
  /\ ((forall w, fst (@smtp_call unit locked_world relay w) = None) ->
      closed (trace (snd (@main_send unit locked_world sample_config 1
                            [story_a; story_c] start)))
      = (closed (trace start) + 2)%nat).
Proof.
  apply (@one_connection_per_story unit locked_world sample_config 1
           [story_a; story_c] start).
  - intros [host port| |user password|msg|] w e; cbn; intros [= <-];
      reflexivity.
  - repeat constructor; do 2 eexists; split; reflexivity.
Defined.

(* ------------------------------------------------------------------ *)
(** ** Where the script and its description part *)

(** The story with the empty [url] is mailed like any other: the message
    handed to the relay has an empty body. *)
Lemma empty_url_is_mailed :
  submitted
    (trace (snd (@main_send_one unit sample_world sample_config 1
                   job_story start)))
  = [email sample_config ""
       "Justin.tv is looking for a Lead Flash Engineer!"].
Proof. vm_compute. reflexivity. Qed.

